(** * Athna page scripts: dropdown, card carousel and smooth scrolling

    A shallow embedding of the three client-side scripts
    ([shop-category.js], [slider.js] and the smooth-scroll script) and the
    proofs of their behavioural properties.

    Conventions of the embedding:
    - a [classList] is a finite set of class names ([gset string]);
    - [sessionStorage] is a finite map from keys to values;
    - a JavaScript number that holds an index is an integer or [NaN]
      ([option Z], [None] being [NaN]); a number that holds a pixel quantity
      is an exact rational or [NaN] ([option Q]): rounding of IEEE doubles is
      not modelled;
    - [undefined] object fields used as numbers are [None] as well, since
      [ToNumber(undefined)] is [NaN];
    - callbacks passed to [setTimeout] are separate functions, and the timers
      a handler leaves pending are part of the state;
    - a handler takes what it reads from its event (coordinates, whether the
      target lies inside an element) as arguments;
    - what a handler does to the window and to the history is the list of
      its effects, in order. *)

From Stdlib Require Import ZArith QArith Qabs Qminmax Lqa String Ascii List Bool Lia.
From stdpp Require Import base option list gmap strings.

Open Scope string_scope.
Open Scope list_scope.

(** ** JavaScript numbers *)

Module JS.

(** Index-valued numbers: [None] is [NaN]. *)
Definition int : Type := option Z.

(** Pixel-valued numbers: [None] is [NaN]. *)
Definition num : Type := option Q.

(** Arithmetic propagates [NaN]. *)
Definition lift2 {A : Type} (f : A -> A -> A) (x y : option A) : option A :=
  match x, y with
  | Some a, Some b => Some (f a b)
  | _, _ => None
  end.

(** Every comparison with [NaN] is false. *)
Definition cmp {A : Type} (f : A -> A -> bool) (x y : option A) : bool :=
  match x, y with
  | Some a, Some b => f a b
  | _, _ => false
  end.

Definition iadd : int -> int -> int := lift2 Z.add.
Definition isub : int -> int -> int := lift2 Z.sub.
Definition imin : int -> int -> int := lift2 Z.min.
Definition imax : int -> int -> int := lift2 Z.max.
Definition ilt : int -> int -> bool := cmp Z.ltb.
Definition ile : int -> int -> bool := cmp Z.leb.
Definition ige : int -> int -> bool := cmp Z.geb.

Definition Qltb (a b : Q) : bool := negb (Qle_bool b a).

Definition add : num -> num -> num := lift2 Qplus.
Definition sub : num -> num -> num := lift2 Qminus.
Definition mul : num -> num -> num := lift2 Qmult.
Definition div : num -> num -> num := lift2 Qdiv.
Definition neg (x : num) : num := option_map Qopp x.
Definition abs (x : num) : num := option_map Qabs x.
Definition lt : num -> num -> bool := cmp Qltb.
Definition gt (x y : num) : bool := lt y x.

(** An index used in pixel arithmetic. *)
Definition of_int (i : int) : num := option_map inject_Z i.

(** [Array.prototype.slice(start, end)]: negative positions count from the
    end of the array, positions are clamped to the array, and an omitted
    [end] is the length. *)
Definition slice {A : Type} (start : Z) (stop : option Z) (l : list A) : list A :=
  let len := Z.of_nat (length l) in
  let rel (i : Z) := if (i <? 0)%Z then Z.max (len + i) 0 else Z.min i len in
  let a := rel start in
  let b := match stop with Some e => rel e | None => len end in
  firstn (Z.to_nat (b - a)) (skipn (Z.to_nat a) l).

End JS.

(** ** DOM class lists *)

Module ClassList.

Definition t : Type := gset string.

Definition contains (c : string) (cl : t) : bool := bool_decide (c ∈ cl).
Definition add (c : string) (cl : t) : t := cl ∪ {[c]}.
Definition remove (c : string) (cl : t) : t := cl ∖ {[c]}.

(** [toggle(c)] removes the class when present and adds it otherwise. *)
Definition toggle (c : string) (cl : t) : t :=
  if contains c cl then remove c cl else add c cl.

(** [toggle(c, force)] adds the class when [force] is true and removes it
    otherwise. *)
Definition toggle_force (c : string) (force : bool) (cl : t) : t :=
  if force then add c cl else remove c cl.

End ClassList.

(** ** The category dropdown ([shop-category.js]) *)

Module Dropdown.

(** The part of the page the script touches: the class lists of the button
    and of the menu, and the inline [style.transform] of the arrow element
    inside the button, when the button has one. *)
Record State : Type := mkState {
  btn : ClassList.t;
  menu : ClassList.t;
  arrow : option string
}.

(** What [DOMContentLoaded] finds in the document: whether the button and
    the menu exist, and how many [.dropdown-item] elements there are. *)
Record Document : Type := mkDocument {
  categoryDropdownBtn : bool;
  categoryDropdownMenu : bool;
  dropdownItems : nat
}.

(** The listeners the script registers. *)
Inductive Listener : Type :=
| BtnClick
| DocumentClick
| ItemClick (i : nat)
| DocumentKeydown.

(** [DOMContentLoaded]: nothing is registered unless both elements exist. *)
Definition onDOMContentLoaded (doc : Document) : list Listener :=
  if negb (categoryDropdownBtn doc) || negb (categoryDropdownMenu doc) then []
  else
    [BtnClick; DocumentClick] ++ map ItemClick (seq 0 (dropdownItems doc))
    ++ [DocumentKeydown].

Definition rotation (shown : bool) : string :=
  if shown then "rotate(180deg)" else "rotate(0deg)".

(** [if (arrow) arrow.style.transform = v]. *)
Definition setArrow (v : string) (a : option string) : option string :=
  match a with
  | Some _ => Some v
  | None => None
  end.

(** Click on the button. *)
Definition btnClick (s : State) : State :=
  let b := ClassList.toggle "active" (btn s) in
  let m := ClassList.toggle "show" (menu s) in
  mkState b m (setArrow (rotation (ClassList.contains "show" m)) (arrow s)).

(** The three closing handlers share their body. *)
Definition close (s : State) : State :=
  mkState (ClassList.remove "active" (btn s))
          (ClassList.remove "show" (menu s))
          (setArrow "rotate(0deg)" (arrow s)).

(** Click anywhere in the document; the two flags say whether the event
    target lies inside the button and inside the menu. *)
Definition documentClick (inBtn inMenu : bool) (s : State) : State :=
  if negb inBtn && negb inMenu then close s else s.

(** Click on a dropdown item. *)
Definition itemClick (s : State) : State := close s.

(** Key press anywhere in the document. *)
Definition documentKeydown (key : string) (s : State) : State :=
  if String.eqb key "Escape" && ClassList.contains "show" (menu s)
  then close s else s.

(** The events of the component, with what the handlers read from them. *)
Inductive Event : Type :=
| EBtnClick
| EDocumentClick (inBtn inMenu : bool)
| EItemClick
| EKeydown (key : string).

Definition handle (e : Event) (s : State) : State :=
  match e with
  | EBtnClick => btnClick s
  | EDocumentClick inBtn inMenu => documentClick inBtn inMenu s
  | EItemClick => itemClick s
  | EKeydown key => documentKeydown key s
  end.

(** Button, menu and arrow agree. *)
Definition consistent (s : State) : Prop :=
  ("active" ∈ btn s ↔ "show" ∈ menu s) ∧
  (∀ t, arrow s = Some t → (t = "rotate(180deg)" ↔ "show" ∈ menu s)).

(** The arrow shows the rotation that belongs to the menu state. *)
Definition arrow_matches (s : State) : Prop :=
  ∀ t, arrow s = Some t → t = rotation (ClassList.contains "show" (menu s)).

End Dropdown.

(** ** The card carousel ([slider.js]) *)

Module Slider.

(** A product card: what it shows and its class list. A clone made by
    [cloneNode(true)] shows the same content. *)
Record Card : Type := mkCard {
  content : nat;
  cardClasses : ClassList.t
}.

Record Options : Type := mkOptions {
  cardsToShow : Z;
  autoSlide : bool;
  slideInterval : Z;
  loop : bool
}.

(** The options a caller passes; an omitted option keeps its default. *)
Record OptionsArg : Type := mkOptionsArg {
  argCardsToShow : option Z;
  argAutoSlide : option bool;
  argSlideInterval : option Z;
  argLoop : option bool
}.

Definition mergeOptions (o : OptionsArg) : Options :=
  mkOptions (default 1%Z (argCardsToShow o))
            (default false (argAutoSlide o))
            (default 5000%Z (argSlideInterval o))
            (default true (argLoop o)).

(** The inline [style.transform] of the wrapper. *)
Inductive Transform : Type :=
| NoTransform
| TranslateX (px : JS.num).

(** The [.cards-wrapper] element: its product cards in document order, its
    class list and the two inline styles the script writes. *)
Record Wrapper : Type := mkWrapper {
  children : list Card;
  classList : ClassList.t;
  transition : string;
  transform : Transform
}.

(** The callbacks the script hands to [setTimeout] and [setInterval]. *)
Inductive Timer : Type :=
| InitPosition
| LoopReset
| AnimationEnd
| GestureReset
| AutoSlide.

Definition Timer_eqb (a b : Timer) : bool :=
  match a, b with
  | InitPosition, InitPosition | LoopReset, LoopReset
  | AnimationEnd, AnimationEnd | GestureReset, GestureReset
  | AutoSlide, AutoSlide => true
  | _, _ => false
  end.

(** The fields of a [CardSlider] object. [timers] holds the callbacks that
    are scheduled and have not run; [mouseDrags] counts the pairs of
    [mousemove]/[mouseup] listeners that [handleMouseDown] has put on the
    document. *)
Record State : Type := mkState {
  wrapper : Wrapper;
  dotsContainer : bool;
  dots : option (list ClassList.t);
  options : Options;
  isDragging : bool;
  isHorizontalSwipe : bool;
  startX : Q;
  startY : Q;
  initialX : Q;
  currentTranslate : JS.num;
  prevTranslate : JS.num;
  currentIndex : JS.int;
  isAnimating : bool;
  totalRealCards : JS.int;
  totalCards : JS.int;
  maxIndex : JS.int;
  cardFullWidth : JS.num;
  timers : list Timer;
  mouseDrags : nat
}.

(** Field updates. *)
Definition set_wrapper (v : Wrapper) (s : State) : State :=
  mkState v (dotsContainer s) (dots s) (options s) (isDragging s)
    (isHorizontalSwipe s) (startX s) (startY s) (initialX s)
    (currentTranslate s) (prevTranslate s) (currentIndex s) (isAnimating s)
    (totalRealCards s) (totalCards s) (maxIndex s) (cardFullWidth s)
    (timers s) (mouseDrags s).
Definition set_dotsContainer (v : bool) (s : State) : State :=
  mkState (wrapper s) v (dots s) (options s) (isDragging s)
    (isHorizontalSwipe s) (startX s) (startY s) (initialX s)
    (currentTranslate s) (prevTranslate s) (currentIndex s) (isAnimating s)
    (totalRealCards s) (totalCards s) (maxIndex s) (cardFullWidth s)
    (timers s) (mouseDrags s).
Definition set_dots (v : option (list ClassList.t)) (s : State) : State :=
  mkState (wrapper s) (dotsContainer s) v (options s) (isDragging s)
    (isHorizontalSwipe s) (startX s) (startY s) (initialX s)
    (currentTranslate s) (prevTranslate s) (currentIndex s) (isAnimating s)
    (totalRealCards s) (totalCards s) (maxIndex s) (cardFullWidth s)
    (timers s) (mouseDrags s).
Definition set_options (v : Options) (s : State) : State :=
  mkState (wrapper s) (dotsContainer s) (dots s) v (isDragging s)
    (isHorizontalSwipe s) (startX s) (startY s) (initialX s)
    (currentTranslate s) (prevTranslate s) (currentIndex s) (isAnimating s)
    (totalRealCards s) (totalCards s) (maxIndex s) (cardFullWidth s)
    (timers s) (mouseDrags s).
Definition set_isDragging (v : bool) (s : State) : State :=
  mkState (wrapper s) (dotsContainer s) (dots s) (options s) v
    (isHorizontalSwipe s) (startX s) (startY s) (initialX s)
    (currentTranslate s) (prevTranslate s) (currentIndex s) (isAnimating s)
    (totalRealCards s) (totalCards s) (maxIndex s) (cardFullWidth s)
    (timers s) (mouseDrags s).
Definition set_isHorizontalSwipe (v : bool) (s : State) : State :=
  mkState (wrapper s) (dotsContainer s) (dots s) (options s) (isDragging s) v
    (startX s) (startY s) (initialX s) (currentTranslate s) (prevTranslate s)
    (currentIndex s) (isAnimating s) (totalRealCards s) (totalCards s)
    (maxIndex s) (cardFullWidth s) (timers s) (mouseDrags s).
Definition set_startX (v : Q) (s : State) : State :=
  mkState (wrapper s) (dotsContainer s) (dots s) (options s) (isDragging s)
    (isHorizontalSwipe s) v (startY s) (initialX s) (currentTranslate s)
    (prevTranslate s) (currentIndex s) (isAnimating s) (totalRealCards s)
    (totalCards s) (maxIndex s) (cardFullWidth s) (timers s) (mouseDrags s).
Definition set_startY (v : Q) (s : State) : State :=
  mkState (wrapper s) (dotsContainer s) (dots s) (options s) (isDragging s)
    (isHorizontalSwipe s) (startX s) v (initialX s) (currentTranslate s)
    (prevTranslate s) (currentIndex s) (isAnimating s) (totalRealCards s)
    (totalCards s) (maxIndex s) (cardFullWidth s) (timers s) (mouseDrags s).
Definition set_initialX (v : Q) (s : State) : State :=
  mkState (wrapper s) (dotsContainer s) (dots s) (options s) (isDragging s)
    (isHorizontalSwipe s) (startX s) (startY s) v (currentTranslate s)
    (prevTranslate s) (currentIndex s) (isAnimating s) (totalRealCards s)
    (totalCards s) (maxIndex s) (cardFullWidth s) (timers s) (mouseDrags s).
Definition set_currentTranslate (v : JS.num) (s : State) : State :=
  mkState (wrapper s) (dotsContainer s) (dots s) (options s) (isDragging s)
    (isHorizontalSwipe s) (startX s) (startY s) (initialX s) v
    (prevTranslate s) (currentIndex s) (isAnimating s) (totalRealCards s)
    (totalCards s) (maxIndex s) (cardFullWidth s) (timers s) (mouseDrags s).
Definition set_prevTranslate (v : JS.num) (s : State) : State :=
  mkState (wrapper s) (dotsContainer s) (dots s) (options s) (isDragging s)
    (isHorizontalSwipe s) (startX s) (startY s) (initialX s)
    (currentTranslate s) v (currentIndex s) (isAnimating s) (totalRealCards s)
    (totalCards s) (maxIndex s) (cardFullWidth s) (timers s) (mouseDrags s).
Definition set_currentIndex (v : JS.int) (s : State) : State :=
  mkState (wrapper s) (dotsContainer s) (dots s) (options s) (isDragging s)
    (isHorizontalSwipe s) (startX s) (startY s) (initialX s)
    (currentTranslate s) (prevTranslate s) v (isAnimating s)
    (totalRealCards s) (totalCards s) (maxIndex s) (cardFullWidth s)
    (timers s) (mouseDrags s).
Definition set_isAnimating (v : bool) (s : State) : State :=
  mkState (wrapper s) (dotsContainer s) (dots s) (options s) (isDragging s)
    (isHorizontalSwipe s) (startX s) (startY s) (initialX s)
    (currentTranslate s) (prevTranslate s) (currentIndex s) v
    (totalRealCards s) (totalCards s) (maxIndex s) (cardFullWidth s)
    (timers s) (mouseDrags s).
Definition set_totalRealCards (v : JS.int) (s : State) : State :=
  mkState (wrapper s) (dotsContainer s) (dots s) (options s) (isDragging s)
    (isHorizontalSwipe s) (startX s) (startY s) (initialX s)
    (currentTranslate s) (prevTranslate s) (currentIndex s) (isAnimating s) v
    (totalCards s) (maxIndex s) (cardFullWidth s) (timers s) (mouseDrags s).
Definition set_totalCards (v : JS.int) (s : State) : State :=
  mkState (wrapper s) (dotsContainer s) (dots s) (options s) (isDragging s)
    (isHorizontalSwipe s) (startX s) (startY s) (initialX s)
    (currentTranslate s) (prevTranslate s) (currentIndex s) (isAnimating s)
    (totalRealCards s) v (maxIndex s) (cardFullWidth s) (timers s)
    (mouseDrags s).
Definition set_maxIndex (v : JS.int) (s : State) : State :=
  mkState (wrapper s) (dotsContainer s) (dots s) (options s) (isDragging s)
    (isHorizontalSwipe s) (startX s) (startY s) (initialX s)
    (currentTranslate s) (prevTranslate s) (currentIndex s) (isAnimating s)
    (totalRealCards s) (totalCards s) v (cardFullWidth s) (timers s)
    (mouseDrags s).
Definition set_cardFullWidth (v : JS.num) (s : State) : State :=
  mkState (wrapper s) (dotsContainer s) (dots s) (options s) (isDragging s)
    (isHorizontalSwipe s) (startX s) (startY s) (initialX s)
    (currentTranslate s) (prevTranslate s) (currentIndex s) (isAnimating s)
    (totalRealCards s) (totalCards s) (maxIndex s) v (timers s) (mouseDrags s).
Definition set_timers (v : list Timer) (s : State) : State :=
  mkState (wrapper s) (dotsContainer s) (dots s) (options s) (isDragging s)
    (isHorizontalSwipe s) (startX s) (startY s) (initialX s)
    (currentTranslate s) (prevTranslate s) (currentIndex s) (isAnimating s)
    (totalRealCards s) (totalCards s) (maxIndex s) (cardFullWidth s) v
    (mouseDrags s).
Definition set_mouseDrags (v : nat) (s : State) : State :=
  mkState (wrapper s) (dotsContainer s) (dots s) (options s) (isDragging s)
    (isHorizontalSwipe s) (startX s) (startY s) (initialX s)
    (currentTranslate s) (prevTranslate s) (currentIndex s) (isAnimating s)
    (totalRealCards s) (totalCards s) (maxIndex s) (cardFullWidth s)
    (timers s) v.

Definition set_children (v : list Card) (s : State) : State :=
  set_wrapper (mkWrapper v (classList (wrapper s)) (transition (wrapper s))
                 (transform (wrapper s))) s.
Definition set_classList (v : ClassList.t) (s : State) : State :=
  set_wrapper (mkWrapper (children (wrapper s)) v (transition (wrapper s))
                 (transform (wrapper s))) s.
Definition set_transition (v : string) (s : State) : State :=
  set_wrapper (mkWrapper (children (wrapper s)) (classList (wrapper s)) v
                 (transform (wrapper s))) s.
Definition set_transform (v : Transform) (s : State) : State :=
  set_wrapper (mkWrapper (children (wrapper s)) (classList (wrapper s))
                 (transition (wrapper s)) v) s.
Definition set_loop (v : bool) (s : State) : State :=
  set_options (mkOptions (cardsToShow (options s)) (autoSlide (options s))
                 (slideInterval (options s)) v) s.

(** [setTimeout]/[setInterval] and [clearTimeout]/[clearInterval]. *)
Definition setTimer (t : Timer) (s : State) : State :=
  set_timers (timers s ++ [t]) s.
Definition clearTimer (t : Timer) (s : State) : State :=
  set_timers (filter (fun u => negb (Timer_eqb t u)) (timers s)) s.

Fixpoint remove_first (t : Timer) (l : list Timer) : list Timer :=
  match l with
  | [] => []
  | u :: l' => if Timer_eqb t u then l' else u :: remove_first t l'
  end.

(** [cloneNode(true)] followed by [classList.add('clone')]. *)
Definition cloneCard (c : Card) : Card :=
  mkCard (content c) (ClassList.add "clone" (cardClasses c)).

(** [setupInfiniteLoop]: with no more real cards than fit the view, looping
    is switched off and nothing else is set. Otherwise clones of the last
    cards are put in front, one [insertBefore(card, firstChild)] at a time,
    and clones of the first cards are appended. *)
Definition setupInfiniteLoop (s : State) : State :=
  let cards := children (wrapper s) in
  let n := Z.of_nat (length cards) in
  let s := set_totalRealCards (Some n) s in
  let k := cardsToShow (options s) in
  if (n <=? k)%Z then set_loop false s
  else
    let cloneCount := Z.min n k in
    let firstCards := map cloneCard (JS.slice 0 (Some cloneCount) cards) in
    let lastCards := map cloneCard (JS.slice (- cloneCount) None cards) in
    let w := fold_left (fun w card => card :: w) lastCards cards in
    let w := fold_left (fun w card => w ++ [card]) firstCards w in
    let s := set_children w s in
    let total := Z.of_nat (length w) in
    let s := set_totalCards (Some total) s in
    set_maxIndex (Some (total - k)%Z) s.

(** [calculateCardWidth]: [measured] is what the layout gives for
    [offsetWidth + marginLeft + marginRight + gap] of the first card. *)
Definition calculateCardWidth (measured : JS.num) (s : State) : State :=
  match children (wrapper s) with
  | [] => s
  | _ :: _ => set_cardFullWidth measured s
  end.

(** [createDots]: one dot per real card, the first one active. *)
Definition newDot (i : nat) : ClassList.t :=
  if Nat.eqb i 0 then ClassList.add "active" {["dot"]} else {["dot"]}.

Definition createDots (s : State) : State :=
  if negb (dotsContainer s) || negb (loop (options s)) then s
  else
    match totalRealCards s with
    | Some n => set_dots (Some (map newDot (seq 0 (Z.to_nat n)))) s
    | None => set_dots (Some []) s
    end.

Definition setSliderPosition (s : State) : State :=
  set_transform (TranslateX (currentTranslate s)) s.

(** The index of the dot that [updateDots] marks, before it is compared
    with the positions of the dots. *)
Definition realIndexOf (s : State) : JS.int :=
  let realIndex := JS.isub (currentIndex s) (Some (cardsToShow (options s))) in
  if JS.ilt realIndex (Some 0%Z) then JS.iadd (totalRealCards s) realIndex
  else if JS.ige realIndex (totalRealCards s)
       then JS.isub realIndex (totalRealCards s)
       else realIndex.

(** [i === realIndex] for the position [i] of a dot. *)
Definition isRealIndex (r : JS.int) (i : nat) : bool :=
  match r with
  | Some z => (Z.of_nat i =? z)%Z
  | None => false
  end.

Definition updateDots (s : State) : State :=
  match dots s with
  | None => s
  | Some ds =>
      if negb (loop (options s)) then s
      else
        let r := realIndexOf s in
        set_dots
          (Some (imap (fun i dot =>
                         ClassList.toggle_force "active" (isRealIndex r i) dot)
                      ds)) s
  end.

(** [slideToIndex(index, animate)] up to the point where it returns; the
    callback it schedules is [loopResetCallback]. *)
Definition slideToIndex (index : JS.int) (animate : bool) (s : State) : State :=
  if isAnimating s then s
  else
    let index := JS.imax (Some 0%Z) (JS.imin index (maxIndex s)) in
    let s := set_transition
               (if negb animate then "none" else "transform 0.3s ease") s in
    let s := set_currentIndex index s in
    let s := set_currentTranslate
               (JS.neg (JS.mul (JS.of_int index) (cardFullWidth s))) s in
    let s := set_prevTranslate (currentTranslate s) s in
    let s := updateDots s in
    let s := setSliderPosition s in
    if loop (options s) && animate
    then setTimer LoopReset (set_isAnimating true s)
    else s.

(** The callback that runs 300 ms after an animated slide. *)
Definition loopResetCallback (s : State) : State :=
  let k1 := Some (cardsToShow (options s) - 1)%Z in
  let s :=
    if JS.ile (currentIndex s) k1 then
      let s := set_transition "none" s in
      let s := set_currentIndex
                 (JS.isub (maxIndex s) (JS.isub k1 (currentIndex s))) s in
      let s := set_currentTranslate
                 (JS.neg (JS.mul (JS.of_int (currentIndex s)) (cardFullWidth s))) s in
      let s := set_prevTranslate (currentTranslate s) s in
      setSliderPosition s
    else if JS.ige (currentIndex s) (JS.isub (maxIndex s) k1) then
      let s := set_transition "none" s in
      let s := set_currentIndex
                 (JS.iadd (JS.isub (currentIndex s) (JS.isub (maxIndex s) k1)) k1) s in
      let s := set_currentTranslate
                 (JS.neg (JS.mul (JS.of_int (currentIndex s)) (cardFullWidth s))) s in
      let s := set_prevTranslate (currentTranslate s) s in
      setSliderPosition s
    else s in
  setTimer AnimationEnd s.

Definition slideToRealIndex (realIndex : Z) (s : State) : State :=
  if loop (options s)
  then slideToIndex (Some (realIndex + cardsToShow (options s))%Z) true s
  else slideToIndex (Some realIndex) true s.

Definition slidePrev (s : State) : State :=
  if isAnimating s then s
  else slideToIndex (JS.isub (currentIndex s) (Some 1%Z)) true s.

Definition slideNext (s : State) : State :=
  if isAnimating s then s
  else slideToIndex (JS.iadd (currentIndex s) (Some 1%Z)) true s.

Definition forceResetGesture (s : State) : State :=
  let s := set_isDragging false s in
  let s := set_isHorizontalSwipe false s in
  let s := set_isAnimating false s in
  let s := clearTimer GestureReset s in
  let s := set_classList (ClassList.remove "dragging" (classList (wrapper s))) s in
  set_transition "transform 0.3s ease" s.

(** [dragEnd]: a drag of more than a third of a card width slides one card
    on, any other drag slides back. *)
Definition movedBy (s : State) : JS.num :=
  JS.sub (currentTranslate s) (prevTranslate s).

Definition threshold (s : State) : JS.num :=
  JS.div (cardFullWidth s) (Some 3%Q).

Definition dragEnd (s : State) : State :=
  let s := set_transition "transform 0.3s ease" s in
  if JS.gt (JS.abs (movedBy s)) (threshold s) then
    let direction := if JS.lt (movedBy s) (Some 0%Q) then 1%Z else (-1)%Z in
    slideToIndex (JS.iadd (currentIndex s) (Some direction)) true s
  else slideToIndex (currentIndex s) true s.

(** [handleTouchStart]: [onLink] says whether the touch started on a link or
    a button ([e.target.closest('a, button')]). *)
Definition handleTouchStart (onLink : bool) (x y : Q) (s : State) : State :=
  if onLink || isAnimating s then s
  else
    let s := clearTimer GestureReset s in
    let s := set_startX x s in
    let s := set_startY y s in
    let s := set_isDragging false s in
    let s := set_isHorizontalSwipe false s in
    let s := set_prevTranslate (currentTranslate s) s in
    let s := set_initialX (startX s) s in
    set_transition "none" s.

Definition LOCK_DISTANCE : Q := 8.

(** [handleTouchMove]: [touch] is [e.touches[0]]. The calls of
    [preventDefault] are not part of the state. *)
Definition handleTouchMove (inWrapper : bool) (touch : option (Q * Q))
    (s : State) : State :=
  if negb inWrapper || isAnimating s then s
  else
    match touch with
    | None => s
    | Some (x, y) =>
        let diffX := (x - startX s)%Q in
        let diffY := (y - startY s)%Q in
        let drag (s : State) : State :=
          if isDragging s then
            setSliderPosition
              (set_currentTranslate (JS.add (prevTranslate s) (Some diffX)) s)
          else s in
        if negb (isDragging s) && negb (isHorizontalSwipe s) then
          if JS.Qltb (Qabs diffX) LOCK_DISTANCE && JS.Qltb (Qabs diffY) LOCK_DISTANCE
          then s
          else if JS.Qltb (Qabs diffY) (Qabs diffX) then
            let s := set_isHorizontalSwipe true s in
            let s := set_isDragging true s in
            let s := set_transition "none" s in
            let s := set_classList
                       (ClassList.add "dragging" (classList (wrapper s))) s in
            drag s
          else s
        else drag s
    end.

Definition handleTouchEnd (s : State) : State :=
  let s :=
    if isDragging s && negb (isAnimating s) then
      let s := dragEnd s in
      set_classList (ClassList.remove "dragging" (classList (wrapper s))) s
    else s in
  let s := set_isDragging false s in
  let s := clearTimer GestureReset s in
  setTimer GestureReset s.

(** [handleMouseDown] puts a [mousemove] and a [mouseup] listener on the
    document; [mouseMove] and [mouseUp] are their bodies. *)
Definition handleMouseDown (onLink : bool) (x : Q) (s : State) : State :=
  if onLink || isAnimating s then s
  else
    let s := set_startX x s in
    let s := set_prevTranslate (currentTranslate s) s in
    let s := set_isDragging true s in
    let s := set_transition "none" s in
    set_mouseDrags (S (mouseDrags s)) s.

Definition mouseMove (x : Q) (s : State) : State :=
  if isAnimating s then s
  else
    let diffX := (x - startX s)%Q in
    setSliderPosition
      (set_currentTranslate (JS.add (prevTranslate s) (Some diffX)) s).

Definition mouseUp (s : State) : State :=
  let s := if isDragging s && negb (isAnimating s) then dragEnd s else s in
  set_mouseDrags (pred (mouseDrags s)) s.

(** The timer callbacks. *)
Definition initPositionCallback (s : State) : State :=
  let s := set_currentIndex (totalRealCards s) s in
  slideToIndex (currentIndex s) false s.

Definition animationEndCallback (s : State) : State :=
  set_isAnimating false s.

Definition gestureResetCallback (s : State) : State :=
  set_isHorizontalSwipe false s.

Definition autoSlideCallback (s : State) : State :=
  if negb (isAnimating s) then slideNext s else s.

Definition startAutoSlide (s : State) : State :=
  let s := clearTimer AutoSlide s in
  if autoSlide (options s) then setTimer AutoSlide s else s.

(** A pending timer runs its callback once; the interval stays pending. *)
Definition fire (t : Timer) (s : State) : State :=
  if existsb (Timer_eqb t) (timers s) then
    match t with
    | InitPosition =>
        initPositionCallback (set_timers (remove_first t (timers s)) s)
    | LoopReset =>
        loopResetCallback (set_timers (remove_first t (timers s)) s)
    | AnimationEnd =>
        animationEndCallback (set_timers (remove_first t (timers s)) s)
    | GestureReset =>
        gestureResetCallback (set_timers (remove_first t (timers s)) s)
    | AutoSlide => autoSlideCallback s
    end
  else s.

(** What the constructor finds under the container element: the cards of
    its [.cards-wrapper] if there is one, its arrows, and whether the next
    sibling of the container is a [.slider-dots] element. *)
Record Container : Type := mkContainer {
  cardsWrapper : option (list Card);
  prevArrow : bool;
  nextArrow : bool;
  sliderDots : bool
}.

(** The result of [new CardSlider(...)]: an object whose constructor
    returned before setting anything up, a [TypeError] raised on a missing
    wrapper, or an initialised slider. *)
Inductive Constructed : Type :=
| NotInitialised
| Threw
| Ready (s : State).

Definition init (measured : JS.num) (s : State) : State :=
  let s := setupInfiniteLoop s in
  let s := calculateCardWidth measured s in
  let s := createDots s in
  let s := if loop (options s) then setTimer InitPosition s else s in
  if autoSlide (options s) then startAutoSlide s else s.

Definition constructor (container : option Container) (opts : OptionsArg)
    (measured : JS.num) : Constructed :=
  match container with
  | None => NotInitialised
  | Some c =>
      match cardsWrapper c with
      | None => Threw
      | Some cards =>
          Ready (init measured
                   (mkState (mkWrapper cards ∅ EmptyString NoTransform) (sliderDots c) None
                      (mergeOptions opts) false false 0 0 0
                      (Some 0%Q) (Some 0%Q) (Some 0%Z) false
                      None None None None [] 0))
      end
  end.

(** The events that reach the slider. A touch or mouse event is first
    handled by the listener on the wrapper, when its target is inside the
    wrapper, and then by the listener on the document. The clicks on the
    arrows and on the dots reach the slider where [setupEventListeners] and
    [createDots] found these elements. *)
Inductive Event : Type :=
| TouchStart (inWrapper onLink : bool) (x y : Q)
| TouchMove (inWrapper : bool) (touch : option (Q * Q))
| TouchEnd (inWrapper : bool)
| MouseDown (inWrapper onLink : bool) (x : Q)
| MouseMove (x : Q)
| MouseUp
| PrevClick
| NextClick
| DotClick (i : nat)
| Resize (measured : JS.num)
| Timeout (t : Timer).

Definition handle (e : Event) (s : State) : State :=
  match e with
  | TouchStart inWrapper onLink x y =>
      if inWrapper then handleTouchStart onLink x y s else forceResetGesture s
  | TouchMove inWrapper touch =>
      if inWrapper then handleTouchMove true touch s else forceResetGesture s
  | TouchEnd inWrapper =>
      forceResetGesture (if inWrapper then handleTouchEnd s else s)
  | MouseDown inWrapper onLink x =>
      if inWrapper then handleMouseDown onLink x s else forceResetGesture s
  | MouseMove x => Nat.iter (mouseDrags s) (mouseMove x) s
  | MouseUp => Nat.iter (mouseDrags s) mouseUp s
  | PrevClick => slidePrev s
  | NextClick => slideNext s
  | DotClick i => slideToRealIndex (Z.of_nat i) s
  | Resize measured =>
      let s := calculateCardWidth measured s in
      slideToIndex (currentIndex s) false s
  | Timeout t => fire t s
  end.

(** The contents of the cards in view at the index [i]. The wrapper is
    shifted left by [i] card widths ([translateX(-(i * cardFullWidth))]), so
    the view starts at the card at position [i] and holds [cardsToShow]
    cards. *)
Definition visibleAt (i : Z) (s : State) : list nat :=
  map content
    (firstn (Z.to_nat (cardsToShow (options s)))
       (skipn (Z.to_nat i) (children (wrapper s)))).

Definition visible (s : State) : list nat :=
  match currentIndex s with
  | Some i => visibleAt i s
  | None => []
  end.

(** The index the deferred reset leaves, as a function of the state it
    finds. *)
Definition loopResetIndex (s : State) : JS.int :=
  let k1 := Some (cardsToShow (options s) - 1)%Z in
  if JS.ile (currentIndex s) k1 then
    JS.isub (maxIndex s) (JS.isub k1 (currentIndex s))
  else if JS.ige (currentIndex s) (JS.isub (maxIndex s) k1) then
    JS.iadd (JS.isub (currentIndex s) (JS.isub (maxIndex s) k1)) k1
  else currentIndex s.

(** The fields no handler writes once the slider is set up. *)
Record same_layout (s s' : State) : Prop := mkSameLayout {
  layout_maxIndex : maxIndex s' = maxIndex s;
  layout_options : options s' = options s;
  layout_totalRealCards : totalRealCards s' = totalRealCards s;
  layout_children : children (wrapper s') = children (wrapper s)
}.

(** The layout [setupInfiniteLoop] leaves behind when it clones: [n] real
    cards, [k] of them in view, and the last index [n + k]. *)
Definition loop_layout (n k : Z) (s : State) : Prop :=
  (k < n)%Z ∧
  cardsToShow (options s) = k ∧
  totalRealCards s = Some n ∧
  maxIndex s = Some (n + k)%Z.

(** The invariant of the slide operations. *)
Definition slide_invariant (s : State) : Prop :=
  (∃ i m, currentIndex s = Some i ∧ maxIndex s = Some m ∧ (0 <= i <= m)%Z) ∧
  currentTranslate s
    = JS.neg (JS.mul (JS.of_int (currentIndex s)) (cardFullWidth s)) ∧
  prevTranslate s = currentTranslate s.

(** The fields that [updateDots] and [setSliderPosition] leave alone. *)
Record same_numbers (s s' : State) : Prop := mkSame {
  same_currentIndex : currentIndex s' = currentIndex s;
  same_currentTranslate : currentTranslate s' = currentTranslate s;
  same_prevTranslate : prevTranslate s' = prevTranslate s;
  same_maxIndex : maxIndex s' = maxIndex s;
  same_cardFullWidth : cardFullWidth s' = cardFullWidth s;
  same_totalRealCards : totalRealCards s' = totalRealCards s;
  same_options : options s' = options s;
  same_isAnimating : isAnimating s' = isAnimating s;
  same_children : children (wrapper s') = children (wrapper s)
}.

(** A sequence of events, handled one after the other. *)
Definition run (events : list Event) (s : State) : State :=
  fold_left (fun s e => handle e s) events s.

End Slider.

(** ** Strings *)

Module Str.

Definition startsWith (p s : string) : bool := String.prefix p s.

Definition drop (n : nat) (s : string) : string :=
  String.substring n (String.length s - n) s.

Definition endsWith (suffix s : string) : bool :=
  (String.length suffix <=? String.length s)%nat &&
  String.eqb (drop (String.length s - String.length suffix) s) suffix.

Fixpoint includes (sub s : string) : bool :=
  String.prefix sub s ||
  match s with
  | EmptyString => false
  | String _ s' => includes sub s'
  end.

(** The text before and after the first occurrence of [sep]. *)
Fixpoint find_first (sep s : string) : option (string * string) :=
  if String.prefix sep s then Some (EmptyString, drop (String.length sep) s)
  else
    match s with
    | EmptyString => None
    | String c s' =>
        match find_first sep s' with
        | Some (a, b) => Some (String c a, b)
        | None => None
        end
    end.

(** [s.split(sep)] for a separator that is not empty. Every occurrence
    found takes at least one character, so the length of [s] bounds the
    number of cuts. *)
Fixpoint split_upto (cuts : nat) (sep s : string) : list string :=
  match cuts with
  | O => [s]
  | S cuts' =>
      match find_first sep s with
      | None => [s]
      | Some (a, b) => a :: split_upto cuts' sep b
      end
  end.

Definition split (sep s : string) : list string :=
  split_upto (String.length s) sep s.

(** [sep] starts nowhere inside [pre] when [pre] is followed by [sep] and
    [rest]: the occurrence after [pre] is the first one. *)
Definition first_at (sep pre rest : string) : Prop :=
  ∀ a b, pre = a +:+ b → b ≠ EmptyString →
         String.prefix sep (b +:+ sep +:+ rest) = false.

End Str.

(** ** Smooth scrolling *)

Module SmoothScroll.

Record Config : Type := mkConfig {
  offset : Q;
  duration : Q;
  easing : string;
  debug : bool
}.

Definition config : Config := mkConfig 80 800 "easeInOutQuad" true.

Definition linear (t : Q) : Q := t.
Definition easeInQuad (t : Q) : Q := t * t.
Definition easeOutQuad (t : Q) : Q := t * (2 - t).
Definition easeInOutQuad (t : Q) : Q :=
  if JS.Qltb t (1 # 2) then 2 * t * t else - (1) + (4 - 2 * t) * t.
Definition easeInCubic (t : Q) : Q := t * t * t.
Definition easeOutCubic (t : Q) : Q := (t - 1) * (t - 1) * (t - 1) + 1.
Definition easeInOutCubic (t : Q) : Q :=
  if JS.Qltb t (1 # 2) then 4 * t * t * t
  else (t - 1) * (2 * t - 2) * (2 * t - 2) + 1.

Definition easingFunctions (name : string) : option (Q -> Q) :=
  if String.eqb name "linear" then Some linear
  else if String.eqb name "easeInQuad" then Some easeInQuad
  else if String.eqb name "easeOutQuad" then Some easeOutQuad
  else if String.eqb name "easeInOutQuad" then Some easeInOutQuad
  else if String.eqb name "easeInCubic" then Some easeInCubic
  else if String.eqb name "easeOutCubic" then Some easeOutCubic
  else if String.eqb name "easeInOutCubic" then Some easeInOutCubic
  else None.

(** What [document.querySelector] does with a selector: it raises a
    [SyntaxError], finds nothing, or finds an element, of which the script
    reads [getBoundingClientRect().top]. *)
Inductive QueryResult : Type :=
| Throws
| Null
| Element (rectTop : Q).

(** What a handler reads from the browser: the path of the location, the
    document, the scroll position ([window.pageYOffset], which
    [document.documentElement.scrollTop] equals), the clock, and the times
    at which the browser delivers the animation frames that follow. *)
Record Env : Type := mkEnv {
  pathname : string;
  querySelector : string -> QueryResult;
  scrollY : Q;
  now : Q;
  frames : list Q
}.

(** What a handler does to the browser, in order. The messages written to
    the console are left out. *)
Inductive Effect : Type :=
| PreventDefault
| ScrollTo (y : Q)
| PushState (url : string).

Definition isHomePage (env : Env) : bool :=
  let path := pathname env in
  Str.endsWith "index.html" path || Str.endsWith "/" path || String.eqb path EmptyString.

(** [extractIdFromHref]: [None] is [null]. A piece that [split] does not
    give is [undefined], which [+] turns into text. *)
Definition extractIdFromHref (href : string) : option string :=
  if Str.includes "index.html#" href then
    Some ("#" +:+ nth 1 (Str.split "index.html#" href) "undefined")
  else if Str.includes "./index.html#" href then
    Some ("#" +:+ nth 1 (Str.split "./index.html#" href) "undefined")
  else if Str.startsWith "#" href then Some href
  else None.

(** [getTargetElement]: the element, as the top of its bounding rectangle,
    or [None] for [null]. *)
Definition getTargetElement (env : Env) (hash : option string) : option Q :=
  match hash with
  | None => None
  | Some h =>
      if String.eqb h EmptyString || String.eqb h "#" then None
      else
        match querySelector env h with
        | Element top => Some top
        | Null => None
        | Throws => None
        end
  end.

(** [a || b] on numbers: [0] is falsy. *)
Definition or_num (a b : Q) : Q := if Qeq_bool a 0 then b else a.

Definition scrollTop (env : Env) : Q := or_num (scrollY env) (scrollY env).

Definition getTargetPosition (cfg : Config) (env : Env) (rectTop : Q) : Q :=
  rectTop + scrollTop env - offset cfg.

(** The frames of the animation: each one scrolls, and the first one at or
    after the end of the duration scrolls to the target and resolves the
    promise. The result says whether the promise is resolved. *)
Fixpoint animation (cfg : Config) (ease : Q -> Q) (startPosition distance
    startTime targetPosition : Q) (times : list Q) : list Effect * bool :=
  match times with
  | [] => ([], false)
  | currentTime :: rest =>
      let timeElapsed := (currentTime - startTime)%Q in
      let progress := Qmin (timeElapsed / duration cfg) 1 in
      let step := ScrollTo (startPosition + distance * ease progress) in
      if JS.Qltb timeElapsed (duration cfg) then
        let (effects, resolved) :=
          animation cfg ease startPosition distance startTime targetPosition rest in
        (step :: effects, resolved)
      else ([step; ScrollTo targetPosition], true)
  end.

Definition animateScroll (cfg : Config) (env : Env) (targetPosition : Q)
    : list Effect * bool :=
  let startPosition := scrollTop env in
  let distance := (targetPosition - startPosition)%Q in
  let startTime := now env in
  let ease := default easeInOutQuad (easingFunctions (easing cfg)) in
  if JS.Qltb (Qabs distance) 5 then ([ScrollTo targetPosition], true)
  else animation cfg ease startPosition distance startTime targetPosition
         (frames env).

(** The three places that scroll share this: look the target up, animate
    to it, and push the hash once the promise is resolved. *)
Definition scrollToTarget (cfg : Config) (env : Env) (hash : option string)
    : list Effect :=
  match getTargetElement env hash with
  | None => []
  | Some top =>
      let (effects, resolved) :=
        animateScroll cfg env (getTargetPosition cfg env top) in
      effects ++
      match hash, resolved with
      | Some h, true => [PushState h]
      | _, _ => []
      end
  end.

Definition truthy (o : option string) : bool :=
  match o with
  | Some h => negb (String.eqb h EmptyString)
  | None => false
  end.

(** [handleAnchorClick]: [href] is [link.getAttribute('href')]. *)
Definition handleAnchorClick (cfg : Config) (env : Env) (href : option string)
    (storage : gmap string string) : list Effect * gmap string string :=
  match href with
  | None => ([], storage)
  | Some h =>
      if String.eqb h EmptyString then ([], storage)
      else if Str.startsWith "#" h && negb (String.eqb h "#") then
        (PreventDefault :: scrollToTarget cfg env (Some h), storage)
      else if Str.includes "index.html#" h then
        if isHomePage env then
          (PreventDefault :: scrollToTarget cfg env (extractIdFromHref h), storage)
        else
          match extractIdFromHref h with
          | Some id =>
              if truthy (Some id) then ([], <["scrollTarget" := id]> storage)
              else ([], storage)
          | None => ([], storage)
          end
      else ([], storage)
  end.

(** [checkStoredScrollTarget] up to the point where it returns: the new
    storage, and the target the callback it schedules will scroll to. *)
Definition checkStoredScrollTarget (storage : gmap string string)
    : gmap string string * option string :=
  let targetId := storage !! "scrollTarget" in
  if truthy targetId then (delete "scrollTarget" storage, targetId)
  else (storage, None).

(** The callback that runs 500 ms later. *)
Definition storedTargetCallback (cfg : Config) (env : Env) (targetId : string)
    : list Effect :=
  scrollToTarget cfg env (Some targetId).

(** A page load from [initSmoothScroll] to the end of the callback. *)
Definition pageLoad (cfg : Config) (env : Env) (storage : gmap string string)
    : list Effect * gmap string string :=
  match checkStoredScrollTarget storage with
  | (storage', Some targetId) => (storedTargetCallback cfg env targetId, storage')
  | (storage', None) => ([], storage')
  end.

(** The hash a click on a link with this [href] looks up in the document:
    the [href] itself for a local anchor, the extracted id for a link to a
    section of the home page. *)
Definition clickTarget (href : string) : option string :=
  if Str.startsWith "#" href && negb (String.eqb href "#") then Some href
  else extractIdFromHref href.

(** The positions the page was scrolled to and the entries pushed onto the
    history. *)
Definition scrolls (effects : list Effect) : list Q :=
  omap (fun e => match e with ScrollTo y => Some y | _ => None end) effects.

Definition pushes (effects : list Effect) : list string :=
  omap (fun e => match e with PushState u => Some u | _ => None end) effects.

Definition preventsDefault (effects : list Effect) : bool :=
  existsb (fun e => match e with PreventDefault => true | _ => false end) effects.

(** The links the click handler is attached to, by [initSmoothScroll] and by
    the mutation observer: those that match
    [a[href^="#"], a[href*="index.html#"], a[href*="./index.html#"]]. *)
Definition linkSelector (href : string) : bool :=
  Str.startsWith "#" href || Str.includes "index.html#" href
  || Str.includes "./index.html#" href.



End SmoothScroll.

(** ** The page: the three scripts side by side *)

Module Page.

(** The state the handlers of the three scripts work on: the dropdown, the
    slider, the session storage, which outlives the page, and what was done
    to the window and the history so far. *)
Record State : Type := mkState {
  dropdown : Dropdown.State;
  slider : Slider.State;
  sessionStorage : gmap string string;
  effects : list SmoothScroll.Effect
}.

Inductive Event : Type :=
| DropdownEvent (e : Dropdown.Event)
| SliderEvent (e : Slider.Event)
| AnchorClick (cfg : SmoothScroll.Config) (env : SmoothScroll.Env)
    (href : option string)
| SmoothScrollInit (cfg : SmoothScroll.Config) (env : SmoothScroll.Env).

Definition handle (e : Event) (p : State) : State :=
  match e with
  | DropdownEvent e =>
      mkState (Dropdown.handle e (dropdown p)) (slider p) (sessionStorage p)
        (effects p)
  | SliderEvent e =>
      mkState (dropdown p) (Slider.handle e (slider p)) (sessionStorage p)
        (effects p)
  | AnchorClick cfg env href =>
      let (done, storage) :=
        SmoothScroll.handleAnchorClick cfg env href (sessionStorage p) in
      mkState (dropdown p) (slider p) storage (effects p ++ done)
  | SmoothScrollInit cfg env =>
      let (done, storage) := SmoothScroll.pageLoad cfg env (sessionStorage p) in
      mkState (dropdown p) (slider p) storage (effects p ++ done)
  end.

(** The events of the dropdown and of the slider. *)
Definition isSmoothScrollEvent (e : Event) : bool :=
  match e with
  | DropdownEvent _ | SliderEvent _ => false
  | AnchorClick _ _ _ | SmoothScrollInit _ _ => true
  end.

End Page.

(** ** Sample pages *)

Module Examples.
Import Slider.

(** A carousel of three cards that shows one card at a time, as the page
    constructs it, with cards 100 pixels wide. *)
Definition threeCards : list Card :=
  [mkCard 0 {["product-card"]}; mkCard 1 {["product-card"]};
   mkCard 2 {["product-card"]}].

Definition pageOptions : OptionsArg :=
  mkOptionsArg (Some 1%Z) (Some false) None (Some true).

Definition constructed : State :=
  match constructor (Some (mkContainer (Some threeCards) true true true))
          pageOptions (Some 100%Q) with
  | Ready s => s
  | _ => mkState (mkWrapper [] ∅ EmptyString NoTransform) false None
           (mergeOptions pageOptions) false false 0 0 0 None None None false
           None None None None [] 0
  end.

(** The slider once the initial position is set. *)
Definition started : State := handle (Timeout InitPosition) constructed.

Definition startedDots : list ClassList.t := default [] (dots started).

(** An animated slide together with the two callbacks that follow it. *)
Definition settle (s : State) : State :=
  handle (Timeout AnimationEnd) (handle (Timeout LoopReset) s).

(** The slider in the middle of the animated slide that a click on the next
    arrow starts. *)
Definition sliding : State := handle NextClick started.

(** A carousel with a single card: no more cards than fit the view. *)
Definition singleCard : State :=
  match constructor
          (Some (mkContainer (Some [mkCard 0 {["product-card"]}]) true true true))
          pageOptions (Some 100%Q) with
  | Ready s => s
  | _ => constructed
  end.

(** The slider showing the first real card, after a click on the first dot. *)
Definition atFirstCard : State := settle (handle (DotClick 0) started).

(** The slider after a click on the next arrow from the initial position
    and the reset that follows: it rests on index 0. *)
Definition atIndexZero : State := settle (handle NextClick started).

(** From there, the mouse is pressed and moved 60 pixels to the right. *)
Definition draggedRight : State :=
  handle (MouseMove 60) (handle (MouseDown true false 0) atIndexZero).

(** A document in which only [#shop] exists, 500 pixels below the top of
    the viewport, read on a page scrolled down by 100 pixels. *)
Definition shopOnly (selector : string) : SmoothScroll.QueryResult :=
  if String.eqb selector "#shop" then SmoothScroll.Element 500
  else if String.eqb selector "#1" then SmoothScroll.Throws
  else SmoothScroll.Null.

Definition aboutPage : SmoothScroll.Env :=
  SmoothScroll.mkEnv "/about.html" shopOnly 100 1000
    [1016; 1400; 1800; 1816]%Q.

Definition homePage : SmoothScroll.Env :=
  SmoothScroll.mkEnv "/index.html" shopOnly 100 1000
    [1016; 1400; 1800; 1816]%Q.

Definition freshDropdown : Dropdown.State := Dropdown.mkState ∅ ∅ (Some EmptyString).

Definition hiddenDropdown : Dropdown.State :=
  Dropdown.mkState ∅ ∅ (Some "rotate(0deg)").

Definition freshPage : Page.State :=
  Page.mkState freshDropdown constructed ∅ [].

(** The object as the constructor has filled it in, before [init]. *)
Definition unprepared : State :=
  mkState (mkWrapper threeCards ∅ EmptyString NoTransform) true None
    (mergeOptions pageOptions) false false 0 0 0
    (Some 0%Q) (Some 0%Q) (Some 0%Z) false None None None None [] 0.

End Examples.

(* ================================================================== *)
(** * Properties *)

Module ClassListFacts.

Lemma contains_true (c : string) (cl : ClassList.t) :
  ClassList.contains c cl = true ↔ c ∈ cl.
Proof. unfold ClassList.contains. apply bool_decide_eq_true. Qed.

Lemma contains_false (c : string) (cl : ClassList.t) :
  ClassList.contains c cl = false ↔ c ∉ cl.
Proof. unfold ClassList.contains. apply bool_decide_eq_false. Qed.

Lemma elem_of_add (c x : string) (cl : ClassList.t) :
  x ∈ ClassList.add c cl ↔ x ∈ cl ∨ x = c.
Proof.
  unfold ClassList.add. rewrite elem_of_union, elem_of_singleton. tauto.
Qed.

Lemma elem_of_remove (c x : string) (cl : ClassList.t) :
  x ∈ ClassList.remove c cl ↔ x ∈ cl ∧ x ≠ c.
Proof.
  unfold ClassList.remove. rewrite elem_of_difference, elem_of_singleton. tauto.
Qed.

Lemma elem_of_toggle (c : string) (cl : ClassList.t) :
  c ∈ ClassList.toggle c cl ↔ c ∉ cl.
Proof.
  unfold ClassList.toggle.
  destruct (ClassList.contains c cl) eqn:E.
  - apply contains_true in E. rewrite elem_of_remove. tauto.
  - apply contains_false in E. rewrite elem_of_add. tauto.
Qed.

Lemma toggle_toggle (c : string) (cl : ClassList.t) :
  ClassList.toggle c (ClassList.toggle c cl) = cl.
Proof.
  assert (Hin := elem_of_toggle c cl).
  unfold ClassList.toggle at 1.
  destruct (ClassList.contains c (ClassList.toggle c cl)) eqn:E.
  - apply contains_true in E. apply Hin in E.
    unfold ClassList.toggle. apply contains_false in E as E'. rewrite E'.
    apply set_eq. intros x. rewrite elem_of_remove, elem_of_add.
    split; [intros [[H | H] Hne]; [exact H | contradiction] |].
    intros H. split; [left; exact H | intros ->; contradiction].
  - apply contains_false in E.
    assert (Hc : c ∈ cl).
    { destruct (decide (c ∈ cl)) as [H | H]; [exact H |].
      exfalso. apply E, Hin, H. }
    unfold ClassList.toggle. apply contains_true in Hc as Hc'. rewrite Hc'.
    apply set_eq. intros x. rewrite elem_of_add, elem_of_remove.
    split; [intros [[H _] | ->]; assumption |].
    intros H. destruct (decide (x = c)) as [-> | Hne]; [right | left]; auto.
Qed.

End ClassListFacts.

Module NumFacts.

Lemma Qltb_lt (a b : Q) : JS.Qltb a b = true ↔ (a < b)%Q.
Proof.
  unfold JS.Qltb. rewrite negb_true_iff. split.
  - intros H. apply Qnot_le_lt. intros Hle.
    apply Qle_bool_iff in Hle. congruence.
  - intros H. destruct (Qle_bool b a) eqn:E; [| reflexivity].
    apply Qle_bool_iff in E. exfalso. exact (Qlt_not_le _ _ H E).
Qed.

Lemma Qltb_nlt (a b : Q) : JS.Qltb a b = false ↔ ¬ (a < b)%Q.
Proof.
  rewrite <- Qltb_lt. destruct (JS.Qltb a b); split; congruence.
Qed.

End NumFacts.

Module StrFacts.

Lemma append_empty (b : string) : EmptyString +:+ b = b.
Proof. reflexivity. Qed.

Lemma append_String (c : ascii) (a b : string) :
  String c a +:+ b = String c (a +:+ b).
Proof. reflexivity. Qed.

Lemma prefix_empty (s : string) : String.prefix EmptyString s = true.
Proof. destruct s; reflexivity. Qed.

Lemma prefix_app (a b : string) : String.prefix a (a +:+ b) = true.
Proof.
  induction a as [| c a IH].
  - apply prefix_empty.
  - rewrite append_String. simpl.
    destruct (ascii_dec c c); [exact IH | congruence].
Qed.

Lemma substring_all (s : string) : String.substring 0 (String.length s) s = s.
Proof.
  induction s as [| c s IH]; simpl; [reflexivity | rewrite IH; reflexivity].
Qed.

Lemma drop_app (a b : string) : Str.drop (String.length a) (a +:+ b) = b.
Proof.
  unfold Str.drop. induction a as [| c a IH].
  - rewrite append_empty. simpl. rewrite Nat.sub_0_r. apply substring_all.
  - rewrite append_String. simpl. exact IH.
Qed.

Lemma length_append (a b : string) :
  String.length (a +:+ b) = (String.length a + String.length b)%nat.
Proof.
  induction a as [| c a IH]; [reflexivity |].
  rewrite append_String. simpl. rewrite IH. reflexivity.
Qed.

Lemma find_first_unfold (sep s : string) :
  Str.find_first sep s
  = if String.prefix sep s
    then Some (EmptyString, Str.drop (String.length sep) s)
    else match s with
         | EmptyString => None
         | String c s' =>
             match Str.find_first sep s' with
             | Some (a, b) => Some (String c a, b)
             | None => None
             end
         end.
Proof. destruct s; reflexivity. Qed.

Lemma includes_unfold (sub s : string) :
  Str.includes sub s
  = String.prefix sub s
    || match s with
       | EmptyString => false
       | String _ s' => Str.includes sub s'
       end.
Proof. destruct s; reflexivity. Qed.

Lemma find_first_here (sep rest : string) :
  Str.find_first sep (sep +:+ rest) = Some (EmptyString, rest).
Proof. rewrite find_first_unfold, prefix_app, drop_app. reflexivity. Qed.

(** The first occurrence of the separator is found where it stands. *)
Lemma find_first_app (sep pre rest : string) :
  Str.first_at sep pre rest →
  Str.find_first sep (pre +:+ sep +:+ rest) = Some (pre, rest).
Proof.
  induction pre as [| c pre IH]; intros H.
  - rewrite append_empty. apply find_first_here.
  - rewrite find_first_unfold.
    rewrite (H EmptyString (String c pre) eq_refl) by discriminate.
    rewrite append_String, IH; [reflexivity |].
    intros a b -> Hb. apply (H (String c a) b); [reflexivity | exact Hb].
Qed.

Lemma includes_app (sep pre rest : string) :
  Str.includes sep (pre +:+ sep +:+ rest) = true.
Proof.
  induction pre as [| c pre IH].
  - rewrite append_empty, includes_unfold, prefix_app. reflexivity.
  - rewrite append_String, includes_unfold, IH. apply orb_true_r.
Qed.

Lemma find_first_none (sep s : string) :
  Str.includes sep s = false → Str.find_first sep s = None.
Proof.
  induction s as [| c s IH]; rewrite includes_unfold, find_first_unfold;
    intros H.
  - apply orb_false_iff in H as [H _]. rewrite H. reflexivity.
  - apply orb_false_iff in H as [H1 H2]. rewrite H1, IH by exact H2.
    reflexivity.
Qed.

Lemma includes_nonempty (sub s : string) :
  sub ≠ EmptyString → Str.includes sub s = true → s ≠ EmptyString.
Proof.
  intros Hsub Hinc ->. simpl in Hinc. destruct sub; [congruence | discriminate].
Qed.

End StrFacts.

Module DropdownProofs.
Import Dropdown ClassListFacts.

Lemma rotation_180 (b : bool) : rotation b = "rotate(180deg)" ↔ b = true.
Proof. destruct b; simpl; split; intros H; try reflexivity; discriminate. Qed.

(** A click toggles both classes, whatever the arrow shows. *)
Lemma btnClick_classes (s : State) :
  ("active" ∈ btn (btnClick s) ↔ "active" ∉ btn s) ∧
  ("show" ∈ menu (btnClick s) ↔ "show" ∉ menu s).
Proof. simpl. split; apply elem_of_toggle. Qed.

(** After a click the arrow, when there is one, shows the rotation of the
    new menu state. *)
Lemma btnClick_arrow (s : State) :
  arrow (btnClick s)
  = setArrow (rotation (ClassList.contains "show" (menu (btnClick s)))) (arrow s).
Proof. reflexivity. Qed.

(** Two clicks give back both class lists. *)
Lemma btnClick_twice_classes (s : State) :
  btn (btnClick (btnClick s)) = btn s ∧ menu (btnClick (btnClick s)) = menu s.
Proof. simpl. split; apply toggle_toggle. Qed.

(** On a fresh page, where the arrow has no inline transform yet, two
    clicks leave the arrow at [rotate(0deg)] and not as it was. *)
Lemma btnClick_twice_fresh_arrow :
  ¬ (∀ s : State, btnClick (btnClick s) = s).
Proof.
  intros H. specialize (H Examples.freshDropdown).
  apply (f_equal arrow) in H. rewrite btnClick_arrow in H.
  destruct (btnClick_twice_classes Examples.freshDropdown) as [_ Hm].
  rewrite Hm in H. simpl in H.
  destruct (ClassList.contains "show" ∅); discriminate H.
Qed.

(** C5 (as amended). A click on the button toggles the button's [active]
    class and the menu's [show] class and sets the arrow to
    [rotate(180deg)] exactly when the menu ends up shown; two clicks in a
    row give back both class lists and leave the arrow at the rotation of
    the menu state, so they restore button, menu and arrow when the arrow
    showed that rotation beforehand. *)
Theorem btnClick_twice_restores (s : State) :
  ("active" ∈ btn (btnClick s) ↔ "active" ∉ btn s) ∧
  ("show" ∈ menu (btnClick s) ↔ "show" ∉ menu s) ∧
  (∀ t, arrow (btnClick s) = Some t →
        (t = "rotate(180deg)" ↔ "show" ∈ menu (btnClick s))) ∧
  btn (btnClick (btnClick s)) = btn s ∧
  menu (btnClick (btnClick s)) = menu s ∧
  arrow (btnClick (btnClick s))
  = setArrow (rotation (ClassList.contains "show" (menu s))) (arrow s) ∧
  (arrow_matches s → btnClick (btnClick s) = s).
Proof.
  destruct (btnClick_classes s) as [Hb Hm].
  destruct (btnClick_twice_classes s) as [Hb2 Hm2].
  assert (Ha2 : arrow (btnClick (btnClick s))
                = setArrow (rotation (ClassList.contains "show" (menu s))) (arrow s)).
  { rewrite btnClick_arrow, Hm2. simpl. destruct (arrow s); reflexivity. }
  split; [exact Hb |]. split; [exact Hm |]. split.
  { intros t H. rewrite btnClick_arrow in H.
    destruct (arrow s); [| discriminate]. injection H as <-.
    rewrite rotation_180. apply contains_true. }
  split; [exact Hb2 |]. split; [exact Hm2 |]. split; [exact Ha2 |].
  intros Harrow.
  destruct (btnClick (btnClick s)) as [b2 m2 a2] eqn:E.
  destruct s as [b m a]. simpl in Hb2, Hm2, Ha2. subst b2 m2.
  f_equal. rewrite Ha2.
  destruct a as [t |]; simpl; [| reflexivity].
  rewrite (Harrow t eq_refl). reflexivity.
Qed.

Lemma hidden_arrow_matches : arrow_matches Examples.hiddenDropdown.
Proof.
  intros t H. simpl in H. injection H as <-. simpl.
  assert (E : ClassList.contains "show" ∅ = false).
  { apply contains_false. apply not_elem_of_empty. }
  rewrite E. reflexivity.
Qed.

Lemma btnClick_twice_restores_witness :
  arrow_matches Examples.hiddenDropdown ∧
  btnClick (btnClick Examples.hiddenDropdown) = Examples.hiddenDropdown.
Proof.
  split; [exact hidden_arrow_matches |].
  apply (proj2 (proj2 (proj2 (proj2 (proj2 (proj2
           (btnClick_twice_restores Examples.hiddenDropdown))))))).
  exact hidden_arrow_matches.
Defined.

Lemma close_consistent (s : State) : consistent (close s).
Proof.
  split; simpl.
  - rewrite !elem_of_remove. split; intros [_ H]; contradiction.
  - intros t H. destruct (arrow s); [| discriminate]. injection H as <-.
    rewrite elem_of_remove. split; [discriminate | intros [_ H]; contradiction].
Qed.

(** C9. Each of the four handlers keeps button, menu and arrow in
    agreement: afterwards the button has [active] exactly when the menu has
    [show], and an existing arrow shows [rotate(180deg)] exactly when the
    menu is shown. *)
Theorem handle_preserves_consistent (e : Event) (s : State)
    (Hs : consistent s) : consistent (handle e s).
Proof.
  destruct e as [| inBtn inMenu | | key]; simpl.
  - destruct Hs as [Hbm _]. split.
    + destruct (btnClick_classes s) as [Hb Hm]. rewrite Hb, Hm. tauto.
    + intros t H. rewrite btnClick_arrow in H.
      destruct (arrow s); [| discriminate]. injection H as <-.
      rewrite rotation_180. apply contains_true.
  - unfold documentClick. destruct (negb inBtn && negb inMenu);
      [apply close_consistent | exact Hs].
  - apply close_consistent.
  - unfold documentKeydown.
    destruct (String.eqb key "Escape" && ClassList.contains "show" (menu s));
      [apply close_consistent | exact Hs].
Qed.

Lemma hidden_consistent : consistent Examples.hiddenDropdown.
Proof.
  split; simpl.
  - split; intros H; exfalso; revert H; apply not_elem_of_empty.
  - intros t H. injection H as <-. split; [discriminate |].
    intros H. exfalso. revert H. apply not_elem_of_empty.
Qed.

Lemma handle_preserves_consistent_witness :
  consistent Examples.hiddenDropdown ∧
  consistent (handle EBtnClick Examples.hiddenDropdown).
Proof.
  split; [exact hidden_consistent |].
  apply (handle_preserves_consistent EBtnClick Examples.hiddenDropdown).
  exact hidden_consistent.
Defined.

End DropdownProofs.

Module SliderProofs.
Import Slider NumFacts.

Local Open Scope Z_scope.

Lemma updateDots_same (s : State) : same_numbers s (updateDots s).
Proof.
  unfold updateDots.
  destruct (dots s); [destruct (negb (loop (options s))) |];
    constructor; reflexivity.
Qed.

Lemma setSliderPosition_same (s : State) : same_numbers s (setSliderPosition s).
Proof. constructor; reflexivity. Qed.

(** What the body of [slideToIndex] leaves in the numeric fields. *)
Lemma slideToIndex_fields (index : JS.int) (animate : bool) (s : State) :
  isAnimating s = false →
  let s' := slideToIndex index animate s in
  currentIndex s' = JS.imax (Some 0) (JS.imin index (maxIndex s)) ∧
  currentTranslate s'
    = JS.neg (JS.mul (JS.of_int (currentIndex s')) (cardFullWidth s')) ∧
  prevTranslate s' = currentTranslate s' ∧
  maxIndex s' = maxIndex s ∧
  cardFullWidth s' = cardFullWidth s ∧
  totalRealCards s' = totalRealCards s ∧
  options s' = options s ∧
  children (wrapper s') = children (wrapper s).
Proof.
  intros Hanim. unfold slideToIndex. rewrite Hanim.
  set (idx := JS.imax (Some 0) (JS.imin index (maxIndex s))).
  set (s1 := set_prevTranslate _ _).
  destruct (updateDots_same s1) as [U1 U2 U3 U4 U5 U6 U7 U8 U9].
  set (s2 := updateDots s1) in *.
  assert (H2 : currentIndex (setSliderPosition s2) = idx) by (simpl; rewrite U1; reflexivity).
  assert (H3 : currentTranslate (setSliderPosition s2)
               = JS.neg (JS.mul (JS.of_int idx) (cardFullWidth s)))
    by (simpl; rewrite U2; reflexivity).
  assert (H4 : prevTranslate (setSliderPosition s2)
               = JS.neg (JS.mul (JS.of_int idx) (cardFullWidth s)))
    by (simpl; rewrite U3; reflexivity).
  assert (H5 : maxIndex (setSliderPosition s2) = maxIndex s)
    by (simpl; rewrite U4; reflexivity).
  assert (H6 : cardFullWidth (setSliderPosition s2) = cardFullWidth s)
    by (simpl; rewrite U5; reflexivity).
  assert (H7 : totalRealCards (setSliderPosition s2) = totalRealCards s)
    by (simpl; rewrite U6; reflexivity).
  assert (H8 : options (setSliderPosition s2) = options s)
    by (simpl; rewrite U7; reflexivity).
  assert (H9 : children (wrapper (setSliderPosition s2)) = children (wrapper s))
    by (simpl; rewrite U9; reflexivity).
  destruct (loop (options (setSliderPosition s2)) && animate); simpl;
    simpl in H2, H3, H4, H5, H6, H7, H8, H9;
    rewrite ?H2, ?H3, ?H4, ?H5, ?H6, ?H7, ?H8, ?H9; repeat split; auto.
Qed.

(** An early return leaves the state as it is. *)
Lemma slideToIndex_animating (index : JS.int) (animate : bool) (s : State) :
  isAnimating s = true → slideToIndex index animate s = s.
Proof. intros H. unfold slideToIndex. rewrite H. reflexivity. Qed.

Lemma slideToIndex_invariant (i : Z) (animate : bool) (s : State) (m : Z) :
  maxIndex s = Some m → 0 <= m → slide_invariant s →
  slide_invariant (slideToIndex (Some i) animate s).
Proof.
  intros Hm Hm0 Hinv.
  destruct (isAnimating s) eqn:Hanim.
  - rewrite slideToIndex_animating by exact Hanim. exact Hinv.
  - destruct (slideToIndex_fields (Some i) animate s Hanim)
      as (Hi & Ht & Hp & Hmax & _).
    rewrite Hm in Hi. simpl in Hi.
    split; [| split; assumption].
    exists (Z.max 0 (Z.min i m)), m.
    rewrite Hmax. repeat split; auto; lia.
Qed.

(** The deferred reset keeps the index in range and sets both translates
    from the new index. *)
Lemma loopResetCallback_invariant (s : State) (n k : Z) :
  loop_layout n k s → 0 <= n + k → slide_invariant s →
  slide_invariant (loopResetCallback s).
Proof.
  intros (Hkn & Hk & Hn & Hm) Hnk ((i & m & Hi & Hm' & Hr) & Ht & Hp).
  rewrite Hm in Hm'. injection Hm' as <-.
  unfold loopResetCallback. rewrite Hk, Hi, Hm.
  cbn [JS.ile JS.ige JS.cmp JS.isub JS.iadd JS.lift2].
  destruct (i <=? k - 1) eqn:E1.
  - apply Z.leb_le in E1.
    split; [| split; reflexivity]. simpl. rewrite Hm, Hi. simpl.
    eexists _, _. repeat split; lia.
  - apply Z.leb_gt in E1.
    destruct (i >=? n + k - (k - 1)) eqn:E2.
    + apply Z.geb_le in E2.
      split; [| split; reflexivity]. simpl. rewrite Hm, Hi. simpl.
      eexists _, _. repeat split; lia.
    + split; [| split]; simpl; auto.
      exists i, (n + k). auto.
Qed.

Lemma dragEnd_invariant (s : State) (m : Z) :
  maxIndex s = Some m → 0 <= m → slide_invariant s →
  slide_invariant (dragEnd s).
Proof.
  intros Hm Hm0 Hinv.
  assert (Hinv' : slide_invariant (set_transition "transform 0.3s ease" s))
    by exact Hinv.
  destruct Hinv as ((i & m' & Hi & _) & _).
  unfold dragEnd.
  destruct (JS.gt _ _).
  - change (currentIndex (set_transition "transform 0.3s ease" s))
      with (currentIndex s). rewrite Hi.
    apply (slideToIndex_invariant _ _ _ m); auto.
  - change (currentIndex (set_transition "transform 0.3s ease" s))
      with (currentIndex s). rewrite Hi.
    apply (slideToIndex_invariant _ _ _ m); auto.
Qed.

(** While a slide is animating, [slideToIndex] returns at once and the
    index stays where it is. *)
Lemma slideToIndex_while_animating_returns :
  ¬ (∀ (s : State) (i m : Z) (animate : bool),
       maxIndex s = Some m → 0 <= m →
       currentIndex (slideToIndex (Some i) animate s)
       = Some (Z.max 0 (Z.min i m))).
Proof.
  intros H.
  specialize (H Examples.sliding 1 4 true eq_refl ltac:(lia)).
  vm_compute in H. discriminate H.
Qed.

(** C8 (as amended). Where [setupInfiniteLoop] has cloned, [slideToIndex]
    on a slider that is not animating sets [currentIndex] to its argument
    clamped into [0, maxIndex] and both translates to minus [currentIndex]
    times [cardFullWidth]; the deferred reset keeps the index in range and
    sets the translates the same way; hence every slide operation, also one
    that returns at once because a slide is animating, keeps the
    invariant. *)
Theorem slide_operations_keep_invariant (s : State) (n k : Z)
    (Hlayout : loop_layout n k s) (Hmax : 0 <= n + k) :
  (isAnimating s = false →
   ∀ (i : Z) (animate : bool),
     let s' := slideToIndex (Some i) animate s in
     currentIndex s' = Some (Z.max 0 (Z.min i (n + k))) ∧
     0 <= Z.max 0 (Z.min i (n + k)) <= n + k ∧
     maxIndex s' = Some (n + k) ∧
     currentTranslate s'
       = JS.neg (JS.mul (JS.of_int (currentIndex s')) (cardFullWidth s')) ∧
     prevTranslate s' = currentTranslate s') ∧
  (slide_invariant s →
   slide_invariant (loopResetCallback s) ∧
   (∀ (i : Z) (animate : bool),
      slide_invariant (slideToIndex (Some i) animate s)) ∧
   (∀ i : Z, slide_invariant (slideToRealIndex i s)) ∧
   slide_invariant (slidePrev s) ∧
   slide_invariant (slideNext s) ∧
   slide_invariant (dragEnd s)).
Proof.
  assert (Hm : maxIndex s = Some (n + k)) by apply Hlayout.
  split.
  - intros Hanim i animate s'.
    destruct (slideToIndex_fields (Some i) animate s Hanim)
      as (Hi & Ht & Hp & Hmax' & _).
    fold s' in Hi, Ht, Hp, Hmax'. rewrite Hm in Hi, Hmax'. simpl in Hi.
    repeat split; auto; lia.
  - intros Hinv.
    assert (Hslide : ∀ i animate,
               slide_invariant (slideToIndex (Some i) animate s))
      by (intros; apply (slideToIndex_invariant _ _ _ (n + k)); auto).
    pose proof Hinv as ((i & m & Hi & Hm' & Hr) & Ht & Hp).
    split; [apply (loopResetCallback_invariant s n k); auto |].
    split; [exact Hslide |].
    split; [| split; [| split]].
    + intros r. unfold slideToRealIndex. destruct (loop (options s)); apply Hslide.
    + unfold slidePrev. destruct (isAnimating s); [assumption |].
      rewrite Hi. apply Hslide.
    + unfold slideNext. destruct (isAnimating s); [assumption |].
      rewrite Hi. apply Hslide.
    + apply (dragEnd_invariant s (n + k)); auto.
Qed.

Lemma slide_operations_keep_invariant_witness :
  loop_layout 3 1 Examples.started ∧
  slide_invariant (slideNext Examples.started).
Proof.
  assert (Hlayout : loop_layout 3 1 Examples.started)
    by (repeat split; reflexivity).
  split; [exact Hlayout |].
  refine (proj1 (proj2 (proj2 (proj2 (proj2
            (proj2 (slide_operations_keep_invariant Examples.started 3 1
                      Hlayout _) _)))))).
  - discriminate.
  - split; [exists 3, 4; repeat split; discriminate | split; reflexivity].
Defined.

(** Where [setupInfiniteLoop] returned early, [maxIndex] is not set and a
    slide leaves [NaN] in the index and in the translate. *)
Lemma single_card_slide_is_NaN :
  maxIndex Examples.singleCard = None ∧
  currentIndex (handle NextClick Examples.singleCard) = None ∧
  currentTranslate (handle NextClick Examples.singleCard) = None.
Proof. repeat split; reflexivity. Qed.

(** The real index stays among the real cards. *)
Lemma realIndexOf_range (s : State) (n k i : Z) :
  loop_layout n k s → currentIndex s = Some i → 0 <= i <= n + k →
  ∃ r, realIndexOf s = Some r ∧ 0 <= r < n.
Proof.
  intros (Hkn & Hk & Hn & Hm) Hi Hr.
  unfold realIndexOf. rewrite Hi, Hk, Hn.
  cbn [JS.ilt JS.ige JS.cmp JS.isub JS.iadd JS.lift2].
  destruct (i - k <? 0) eqn:E1.
  - apply Z.ltb_lt in E1. eexists. split; [reflexivity | lia].
  - apply Z.ltb_ge in E1.
    destruct (i - k >=? n) eqn:E2.
    + apply Z.geb_le in E2. eexists. split; [reflexivity | lia].
    + assert (i - k < n).
      { destruct (Z.lt_ge_cases (i - k) n) as [H | H]; [exact H |].
        apply Z.geb_le in H. congruence. }
      eexists. split; [reflexivity | lia].
Qed.

(** [createDots] makes one dot per real card. *)
Lemma createDots_length (s : State) (n : Z) :
  dotsContainer s = true → loop (options s) = true →
  totalRealCards s = Some n → 0 <= n →
  ∃ ds, dots (createDots s) = Some ds ∧ Z.of_nat (length ds) = n.
Proof.
  intros Hc Hl Hn Hn0. unfold createDots. rewrite Hc, Hl, Hn. simpl.
  eexists. split; [reflexivity |].
  rewrite length_map, length_seq. lia.
Qed.

(** C10. In loop mode, for every index from [0] to [maxIndex], the real
    index that [updateDots] computes after its wrap-around lies among the
    real cards; with one dot per real card, [updateDots] then leaves the
    dot at that position, and no other, active. *)
Theorem updateDots_marks_one_dot (s : State) (n k i : Z)
    (Hlayout : loop_layout n k s)
    (Hi : currentIndex s = Some i) (Hrange : 0 <= i <= n + k) :
  ∃ r : Z,
    realIndexOf s = Some r ∧ 0 <= r < n ∧
    ∀ ds : list ClassList.t,
      loop (options s) = true → dots s = Some ds →
      Z.of_nat (length ds) = n →
      ∃ ds' : list ClassList.t,
        dots (updateDots s) = Some ds' ∧ length ds' = length ds ∧
        (∃ d, ds' !! Z.to_nat r = Some d ∧ "active" ∈ d) ∧
        (∀ j d, ds' !! j = Some d → ("active" ∈ d ↔ Z.of_nat j = r)).
Proof.
  destruct (realIndexOf_range s n k i Hlayout Hi Hrange) as (r & Hr & Hr0).
  exists r. split; [exact Hr |]. split; [exact Hr0 |].
  intros ds Hloop Hdots Hlen.
  assert (Hmark : ∀ j d, imap (fun i dot => ClassList.toggle_force "active"
                                   (isRealIndex (Some r) i) dot) ds !! j = Some d →
                         ("active" ∈ d ↔ Z.of_nat j = r)).
  { intros j d Hj. rewrite list_lookup_imap in Hj.
    destruct (ds !! j) as [d0 |]; [| discriminate]. simpl in Hj.
    injection Hj as <-. unfold ClassList.toggle_force.
    destruct (Z.of_nat j =? r) eqn:E.
    - apply Z.eqb_eq in E. rewrite ClassListFacts.elem_of_add. tauto.
    - apply Z.eqb_neq in E. rewrite ClassListFacts.elem_of_remove.
      split; [intros [_ H]; contradiction | intros H; contradiction]. }
  eexists. split.
  { unfold updateDots. rewrite Hdots, Hloop. simpl. rewrite Hr. reflexivity. }
  split; [apply length_imap |]. split; [| exact Hmark].
  assert (Hlt : (Z.to_nat r < length ds)%nat) by lia.
  destruct (lookup_lt_is_Some_2 ds _ Hlt) as [d0 Hd0].
  eexists. split.
  - rewrite list_lookup_imap, Hd0. reflexivity.
  - unfold ClassList.toggle_force. simpl.
    replace (Z.of_nat (Z.to_nat r) =? r) with true
      by (symmetry; apply Z.eqb_eq; lia).
    apply ClassListFacts.elem_of_add. right. reflexivity.
Qed.

Lemma updateDots_marks_one_dot_witness :
  loop_layout 3 1 Examples.started ∧
  currentIndex Examples.started = Some 3 ∧
  ∃ r : Z, realIndexOf Examples.started = Some r ∧ 0 <= r < 3.
Proof.
  assert (Hlayout : loop_layout 3 1 Examples.started)
    by (repeat split; reflexivity).
  split; [exact Hlayout |]. split; [reflexivity |].
  destruct (updateDots_marks_one_dot Examples.started 3 1 3 Hlayout eq_refl)
    as (r & Hr & Hr0 & _).
  - split; discriminate.
  - exists r. split; [exact Hr | exact Hr0].
Defined.





(** *** The layout is fixed once the slider is set up *)

Lemma same_layout_refl (s : State) : same_layout s s.
Proof. constructor; reflexivity. Qed.

Lemma same_layout_trans (s1 s2 s3 : State) :
  same_layout s1 s2 → same_layout s2 s3 → same_layout s1 s3.
Proof. intros [] []. constructor; congruence. Qed.

Lemma slideToIndex_same_layout (index : JS.int) (animate : bool) (s : State) :
  same_layout s (slideToIndex index animate s).
Proof.
  destruct (isAnimating s) eqn:Hanim.
  - rewrite slideToIndex_animating by exact Hanim. apply same_layout_refl.
  - destruct (slideToIndex_fields index animate s Hanim)
      as (_ & _ & _ & H1 & _ & H2 & H3 & H4).
    constructor; assumption.
Qed.

Lemma loopResetCallback_same_layout (s : State) :
  same_layout s (loopResetCallback s).
Proof.
  unfold loopResetCallback.
  destruct (JS.ile _ _); [| destruct (JS.ige _ _)]; constructor; reflexivity.
Qed.

Lemma slidePrev_same_layout (s : State) : same_layout s (slidePrev s).
Proof.
  unfold slidePrev. destruct (isAnimating s);
    [apply same_layout_refl | apply slideToIndex_same_layout].
Qed.

Lemma slideNext_same_layout (s : State) : same_layout s (slideNext s).
Proof.
  unfold slideNext. destruct (isAnimating s);
    [apply same_layout_refl | apply slideToIndex_same_layout].
Qed.

Lemma dragEnd_same_layout (s : State) : same_layout s (dragEnd s).
Proof.
  unfold dragEnd.
  apply (same_layout_trans _ (set_transition "transform 0.3s ease" s));
    [constructor; reflexivity |].
  destruct (JS.gt _ _); apply slideToIndex_same_layout.
Qed.

Lemma handleTouchMove_same_layout (inWrapper : bool) (touch : option (Q * Q))
    (s : State) : same_layout s (handleTouchMove inWrapper touch s).
Proof.
  unfold handleTouchMove.
  destruct (negb inWrapper || isAnimating s); [apply same_layout_refl |].
  destruct touch as [[x y] |]; [| apply same_layout_refl].
  destruct (negb (isDragging s) && negb (isHorizontalSwipe s)).
  - destruct (_ && _); [apply same_layout_refl |].
    destruct (JS.Qltb _ _); [| apply same_layout_refl].
    simpl. constructor; reflexivity.
  - destruct (isDragging s); constructor; reflexivity.
Qed.

Lemma handleTouchEnd_same_layout (s : State) : same_layout s (handleTouchEnd s).
Proof.
  unfold handleTouchEnd.
  destruct (isDragging s && negb (isAnimating s)).
  - apply (same_layout_trans _ (dragEnd s)); [apply dragEnd_same_layout |].
    constructor; reflexivity.
  - constructor; reflexivity.
Qed.

Lemma mouseUp_same_layout (s : State) : same_layout s (mouseUp s).
Proof.
  unfold mouseUp. destruct (isDragging s && negb (isAnimating s)).
  - apply (same_layout_trans _ (dragEnd s)); [apply dragEnd_same_layout |].
    constructor; reflexivity.
  - constructor; reflexivity.
Qed.

Lemma mouseMove_same_layout (x : Q) (s : State) : same_layout s (mouseMove x s).
Proof. unfold mouseMove. destruct (isAnimating s); constructor; reflexivity. Qed.

Lemma iter_same_layout (f : State → State) (n : nat) (s : State) :
  (∀ t, same_layout t (f t)) → same_layout s (Nat.iter n f s).
Proof.
  intros Hf. induction n as [| n IH]; simpl; [apply same_layout_refl |].
  apply (same_layout_trans _ (Nat.iter n f s)); [exact IH | apply Hf].
Qed.

Lemma fire_same_layout (t : Timer) (s : State) : same_layout s (fire t s).
Proof.
  unfold fire. destruct (existsb _ _); [| apply same_layout_refl].
  destruct t.
  - unfold initPositionCallback.
    eapply same_layout_trans; [| apply slideToIndex_same_layout].
    constructor; reflexivity.
  - eapply same_layout_trans; [| apply loopResetCallback_same_layout].
    constructor; reflexivity.
  - constructor; reflexivity.
  - constructor; reflexivity.
  - unfold autoSlideCallback. destruct (negb (isAnimating s));
      [apply slideNext_same_layout | apply same_layout_refl].
Qed.

(** No event changes the cards of the wrapper, the options, the number of
    real cards or the last index. *)
Lemma handle_same_layout (e : Event) (s : State) : same_layout s (handle e s).
Proof.
  destruct e as [inW onLink x y | inW touch | inW | inW onLink x | x | | | | i
                | measured | t]; simpl.
  - destruct inW; [| constructor; reflexivity].
    unfold handleTouchStart. destruct (onLink || isAnimating s);
      constructor; reflexivity.
  - destruct inW; [apply handleTouchMove_same_layout | constructor; reflexivity].
  - destruct inW.
    + apply (same_layout_trans _ (handleTouchEnd s));
        [apply handleTouchEnd_same_layout | constructor; reflexivity].
    + constructor; reflexivity.
  - destruct inW; [| constructor; reflexivity].
    unfold handleMouseDown. destruct (onLink || isAnimating s);
      constructor; reflexivity.
  - apply iter_same_layout. intros t. apply mouseMove_same_layout.
  - apply iter_same_layout. intros t. apply mouseUp_same_layout.
  - apply slidePrev_same_layout.
  - apply slideNext_same_layout.
  - unfold slideToRealIndex. destruct (loop (options s));
      apply slideToIndex_same_layout.
  - eapply same_layout_trans; [| apply slideToIndex_same_layout].
    unfold calculateCardWidth. destruct (children (wrapper s));
      constructor; reflexivity.
  - apply fire_same_layout.
Qed.

Lemma handle_loop_layout (e : Event) (s : State) (n k : Z) :
  loop_layout n k s → loop_layout n k (handle e s).
Proof.
  intros (Hkn & Hk & Hn & Hm).
  destruct (handle_same_layout e s) as [H1 H2 H3 H4].
  repeat split; [exact Hkn | | |]; congruence.
Qed.

(** *** What [setupInfiniteLoop] builds *)

Lemma fold_left_push_front {A : Type} (l acc : list A) :
  fold_left (fun w c => c :: w) l acc = rev l ++ acc.
Proof.
  revert acc. induction l as [| x l IH]; intros acc; simpl; [reflexivity |].
  rewrite IH, <- app_assoc. reflexivity.
Qed.

Lemma fold_left_push_back {A : Type} (l acc : list A) :
  fold_left (fun w c => w ++ [c]) l acc = acc ++ l.
Proof.
  revert acc. induction l as [| x l IH]; intros acc; simpl.
  - rewrite app_nil_r. reflexivity.
  - rewrite IH, <- app_assoc. reflexivity.
Qed.

Lemma slice_first {A : Type} (k : Z) (l : list A) :
  0 <= k <= Z.of_nat (length l) →
  JS.slice 0 (Some k) l = firstn (Z.to_nat k) l.
Proof.
  intros Hk. unfold JS.slice. simpl.
  replace (k <? 0) with false by (symmetry; apply Z.ltb_ge; lia).
  rewrite Z.min_l by lia. rewrite Z.min_l by lia.
  rewrite Z.sub_0_r. reflexivity.
Qed.

Lemma slice_last {A : Type} (k : Z) (l : list A) :
  1 <= k <= Z.of_nat (length l) →
  JS.slice (- k) None l = skipn (Z.to_nat (Z.of_nat (length l) - k)) l.
Proof.
  intros Hk. unfold JS.slice.
  replace (- k <? 0) with true by (symmetry; apply Z.ltb_lt; lia).
  replace (Z.of_nat (length l) + - k) with (Z.of_nat (length l) - k) by lia.
  rewrite Z.max_l by lia.
  apply firstn_all2. rewrite length_skipn. lia.
Qed.

(** With at least one card in view and more real cards than that,
    [setupInfiniteLoop] puts the clones of the last [k] cards in front, in
    reverse order, appends the clones of the first [k] cards, and leaves the
    layout of loop mode. *)
Lemma setupInfiniteLoop_layout (s : State) (n k : Z) :
  Z.of_nat (length (children (wrapper s))) = n →
  cardsToShow (options s) = k → 1 <= k < n →
  let cards := children (wrapper s) in
  let s' := setupInfiniteLoop s in
  children (wrapper s')
  = rev (map cloneCard (skipn (Z.to_nat (n - k)) cards)) ++ cards
    ++ map cloneCard (firstn (Z.to_nat k) cards) ∧
  loop_layout n k s' ∧ 0 <= n + k ∧
  loop (options s') = loop (options s).
Proof.
  intros Hn Hk Hkn cards s'.
  assert (Hs' : s' = setupInfiniteLoop s) by reflexivity.
  unfold setupInfiniteLoop in Hs'. fold cards in Hs'.
  change (cardsToShow (options (set_totalRealCards
            (Some (Z.of_nat (length cards))) s)))
    with (cardsToShow (options s)) in Hs'.
  fold cards in Hn. rewrite Hn, Hk in Hs'.
  replace (n <=? k) with false in Hs' by (symmetry; apply Z.leb_gt; lia).
  rewrite Z.min_r in Hs' by lia.
  rewrite slice_first in Hs' by lia.
  rewrite slice_last in Hs' by lia.
  rewrite Hn in Hs'.
  rewrite fold_left_push_front, fold_left_push_back in Hs'.
  rewrite <- app_assoc in Hs'.
  assert (Hlen : Z.of_nat (length (rev (map cloneCard (skipn (Z.to_nat (n - k)) cards))
                                   ++ cards ++ map cloneCard (firstn (Z.to_nat k) cards)))
                 = n + 2 * k).
  { rewrite !length_app, length_rev, !length_map, length_skipn, length_firstn. lia. }
  rewrite Hlen in Hs'.
  rewrite Hs'. simpl.
  split; [reflexivity |]. split; [| split; [lia | reflexivity]].
  repeat split; simpl; try assumption; try lia.
  f_equal. lia.
Qed.

(** A slider constructed over more cards than it shows has the layout of
    loop mode, and keeps it. *)
Lemma init_loop_layout (measured : JS.num) (s : State) (n k : Z) :
  Z.of_nat (length (children (wrapper s))) = n →
  cardsToShow (options s) = k → 1 <= k < n →
  loop_layout n k (init measured s).
Proof.
  intros Hn Hk Hkn.
  destruct (setupInfiniteLoop_layout s n k Hn Hk Hkn) as (_ & Hlayout & _).
  assert (Hsame : same_layout (setupInfiniteLoop s) (init measured s)).
  { unfold init.
    set (s1 := setupInfiniteLoop s).
    assert (H2 : same_layout s1 (calculateCardWidth measured s1))
      by (unfold calculateCardWidth; destruct (children (wrapper s1));
          constructor; reflexivity).
    set (s2 := calculateCardWidth measured s1) in *.
    assert (H3 : same_layout s2 (createDots s2))
      by (unfold createDots; destruct (_ || _);
          [| destruct (totalRealCards s2)]; constructor; reflexivity).
    set (s3 := createDots s2) in *.
    assert (H4 : same_layout s3 (if loop (options s3)
                                 then setTimer InitPosition s3 else s3))
      by (destruct (loop (options s3)); constructor; reflexivity).
    set (s4 := if loop (options s3) then setTimer InitPosition s3 else s3) in *.
    assert (H5 : same_layout s4 (if autoSlide (options s4)
                                 then startAutoSlide s4 else s4)).
    { destruct (autoSlide (options s4)) eqn:E; [| constructor; reflexivity].
      unfold startAutoSlide.
      change (autoSlide (options (clearTimer AutoSlide s4)))
        with (autoSlide (options s4)).
      rewrite E. constructor; reflexivity. }
    eapply same_layout_trans; [exact H2 |].
    eapply same_layout_trans; [exact H3 |].
    eapply same_layout_trans; [exact H4 | exact H5]. }
  destruct Hlayout as (Hkn' & Hk' & Hn' & Hm').
  destruct Hsame as [H1 H2 H3 H4].
  repeat split; [exact Hkn' | | |]; congruence.
Qed.

(** With one card in view the wrapper is the clone of the last card, the
    real cards, and the clone of the first card. *)
Lemma setupInfiniteLoop_one_in_view (s : State) (first last : Card)
    (mid : list Card) :
  children (wrapper s) = first :: mid ++ [last] →
  cardsToShow (options s) = 1 →
  children (wrapper (setupInfiniteLoop s))
  = cloneCard last :: (first :: mid ++ [last]) ++ [cloneCard first].
Proof.
  intros Hc Hk.
  assert (Hn : Z.of_nat (length (children (wrapper s)))
               = Z.of_nat (length mid) + 2).
  { rewrite Hc. simpl. rewrite length_app. simpl. lia. }
  destruct (setupInfiniteLoop_layout s _ 1 Hn Hk ltac:(lia)) as (H & _).
  rewrite H, Hc.
  replace (Z.to_nat (Z.of_nat (length mid) + 2 - 1)) with (S (length mid)) by lia.
  simpl. rewrite skipn_app, skipn_all, Nat.sub_diag. reflexivity.
Qed.

Lemma loopResetCallback_fields (s : State) :
  currentIndex (loopResetCallback s) = loopResetIndex s ∧
  children (wrapper (loopResetCallback s)) = children (wrapper s) ∧
  options (loopResetCallback s) = options s ∧
  maxIndex (loopResetCallback s) = maxIndex s.
Proof.
  unfold loopResetCallback, loopResetIndex.
  destruct (JS.ile _ _); [| destruct (JS.ige _ _)]; repeat split; reflexivity.
Qed.

(** With one card in view, the deferred reset swaps the two ends of the
    wrapper: from index 0, which shows the clone of the last card, it goes
    to [maxIndex], which shows the clone of the first card, and back. *)
Lemma loopReset_one_in_view (s : State) (first last : Card) (mid : list Card) :
  children (wrapper s)
  = cloneCard last :: (first :: mid ++ [last]) ++ [cloneCard first] →
  cardsToShow (options s) = 1 →
  maxIndex s = Some (Z.of_nat (length mid) + 3) →
  (currentIndex s = Some 0 →
   visible s = [content last] ∧
   currentIndex (loopResetCallback s) = maxIndex s ∧
   visible (loopResetCallback s) = [content first]) ∧
  (currentIndex s = maxIndex s →
   visible s = [content first] ∧
   currentIndex (loopResetCallback s) = Some 0 ∧
   visible (loopResetCallback s) = [content last]).
Proof.
  intros Hc Hk Hm.
  destruct (loopResetCallback_fields s) as (Hi' & Hc' & Ho' & _).
  assert (Hend : ∀ t : State,
            children (wrapper t) = children (wrapper s) →
            options t = options s →
            visibleAt (Z.of_nat (length mid) + 3) t = [content first]).
  { intros t Ht Hot. unfold visibleAt. rewrite Ht, Hot, Hk, Hc.
    replace (Z.to_nat (Z.of_nat (length mid) + 3))
      with (length (cloneCard last :: first :: mid ++ [last])).
    - change (cloneCard last :: (first :: mid ++ [last]) ++ [cloneCard first])
        with ((cloneCard last :: first :: mid ++ [last]) ++ [cloneCard first]).
      rewrite drop_app_length. reflexivity.
    - simpl. rewrite length_app. simpl. lia. }
  assert (Hstart : ∀ t : State,
            children (wrapper t) = children (wrapper s) →
            options t = options s →
            visibleAt 0 t = [content last]).
  { intros t Ht Hot. unfold visibleAt. rewrite Ht, Hot, Hk, Hc. reflexivity. }
  split; intros Hi.
  - assert (Hnew : loopResetIndex s = Some (Z.of_nat (length mid) + 3)).
    { unfold loopResetIndex. rewrite Hk, Hi, Hm. simpl. f_equal. lia. }
    split; [unfold visible; rewrite Hi; apply Hstart; auto |].
    split; [congruence |].
    unfold visible. rewrite Hi', Hnew. apply Hend; assumption.
  - rewrite Hm in Hi.
    assert (Hnew : loopResetIndex s = Some 0).
    { unfold loopResetIndex. rewrite Hk, Hi, Hm.
      cbn [JS.ile JS.ige JS.cmp JS.isub JS.iadd JS.lift2].
      replace (Z.of_nat (length mid) + 3 <=? 1 - 1) with false
        by (symmetry; apply Z.leb_gt; lia).
      replace (Z.of_nat (length mid) + 3 >=? Z.of_nat (length mid) + 3 - (1 - 1))
        with true by (symmetry; apply Z.geb_le; lia).
      f_equal. lia. }
    split; [unfold visible; rewrite Hi; apply Hend; auto |].
    split; [congruence |].
    unfold visible. rewrite Hi', Hnew. apply Hstart; assumption.
Qed.

(** C1. With three cards and one card in view: the slider rests on the
    first real card; [slidePrev] slides to index 0, where the clone of the
    last card is in view; the deferred reset then jumps to index 4, where
    the clone of the first card is in view, and not to index 3, which shows
    the last card. *)
Theorem slidePrev_from_first_card_resets_to_first_card :
  isAnimating Examples.atFirstCard = false ∧
  currentIndex Examples.atFirstCard = Some 1 ∧
  visible Examples.atFirstCard = [0%nat] ∧
  currentIndex (slidePrev Examples.atFirstCard) = Some 0 ∧
  visible (slidePrev Examples.atFirstCard) = [2%nat] ∧
  currentIndex (fire LoopReset (slidePrev Examples.atFirstCard)) = Some 4 ∧
  visible (fire LoopReset (slidePrev Examples.atFirstCard)) = [0%nat] ∧
  visibleAt 3 (slidePrev Examples.atFirstCard) = [2%nat].
Proof. repeat split; vm_compute; reflexivity. Qed.

End SliderProofs.

Module SmoothScrollProofs.
Import SmoothScroll.

Lemma scrollTop_scrollY (env : Env) : scrollTop env = scrollY env.
Proof. unfold scrollTop, or_num. destruct (Qeq_bool _ _); reflexivity. Qed.

(** Once a frame arrives at or after the end of the duration, the animation
    ends on the target and the promise is resolved. *)
Lemma animation_resolves (cfg : Config) (ease : Q → Q)
    (startPosition distance startTime targetPosition : Q) (times : list Q) :
  Exists (fun t => (duration cfg <= t - startTime)%Q) times →
  ∃ mid, animation cfg ease startPosition distance startTime targetPosition times
         = (map ScrollTo mid ++ [ScrollTo targetPosition], true).
Proof.
  induction times as [| t times IH]; intros H.
  - inversion H.
  - simpl. destruct (JS.Qltb (t - startTime) (duration cfg)) eqn:E.
    + apply NumFacts.Qltb_lt in E.
      inversion H as [? ? Ht | ? ? Hrest]; subst.
      * exfalso. exact (Qlt_not_le _ _ E Ht).
      * destruct (IH Hrest) as [mid Hmid]. rewrite Hmid.
        eexists (_ :: mid). reflexivity.
    + eexists [_]. reflexivity.
Qed.

Lemma animateScroll_resolves (cfg : Config) (env : Env) (targetPosition : Q) :
  Exists (fun t => (duration cfg <= t - now env)%Q) (frames env) →
  ∃ mid, animateScroll cfg env targetPosition
         = (map ScrollTo mid ++ [ScrollTo targetPosition], true).
Proof.
  intros H. unfold animateScroll.
  destruct (JS.Qltb _ _).
  - exists []. reflexivity.
  - apply animation_resolves. exact H.
Qed.

Lemma scrollToTarget_missing (cfg : Config) (env : Env) (hash : option string) :
  getTargetElement env hash = None → scrollToTarget cfg env hash = [].
Proof. intros H. unfold scrollToTarget. rewrite H. reflexivity. Qed.

(** A target that is found is scrolled to, and its hash is pushed after the
    last scroll. *)
Lemma scrollToTarget_found (cfg : Config) (env : Env) (h : string) (top : Q) :
  getTargetElement env (Some h) = Some top →
  Exists (fun t => (duration cfg <= t - now env)%Q) (frames env) →
  ∃ mid, scrollToTarget cfg env (Some h)
         = map ScrollTo mid
           ++ [ScrollTo (top + scrollY env - offset cfg); PushState h].
Proof.
  intros Hfound Hframes. unfold scrollToTarget. rewrite Hfound.
  destruct (animateScroll_resolves cfg env (getTargetPosition cfg env top) Hframes)
    as [mid Hmid].
  rewrite Hmid. exists mid.
  unfold getTargetPosition. rewrite scrollTop_scrollY.
  rewrite <- app_assoc. reflexivity.
Qed.

Lemma getTargetElement_query (env : Env) (h : string) :
  h ≠ EmptyString → h ≠ "#" →
  getTargetElement env (Some h)
  = match querySelector env h with
    | Element top => Some top
    | _ => None
    end.
Proof.
  intros H1 H2. unfold getTargetElement.
  apply String.eqb_neq in H1, H2. rewrite H1, H2. simpl.
  destruct (querySelector env h); reflexivity.
Qed.

(** C3. A click on a link whose [href] starts with [#] and is not [#]
    prevents the default navigation and leaves the storage alone. If an
    element matches the hash and the browser delivers animation frames
    until the duration is over, the last scroll goes to the document
    position of the element minus the offset of 80 pixels and the hash is
    pushed onto the history after it; if no element matches, nothing is
    scrolled and nothing is pushed. *)
Theorem local_anchor_click (env : Env) (href : string)
    (storage : gmap string string)
    (Hstart : Str.startsWith "#" href = true) (Hne : href ≠ "#")
    (Hframes : Exists (fun t => (duration config <= t - now env)%Q) (frames env)) :
  snd (handleAnchorClick config env (Some href) storage) = storage ∧
  ∃ rest,
    fst (handleAnchorClick config env (Some href) storage)
    = PreventDefault :: rest ∧
    match querySelector env href with
    | Element top =>
        ∃ mid, rest = map ScrollTo mid
                      ++ [ScrollTo (top + scrollY env - 80); PushState href]
    | _ => rest = [] ∧ scrolls rest = [] ∧ pushes rest = []
    end.
Proof.
  assert (Hnonempty : href ≠ EmptyString) by (intros ->; discriminate Hstart).
  unfold handleAnchorClick.
  apply String.eqb_neq in Hnonempty as E1. apply String.eqb_neq in Hne as E2.
  rewrite E1, Hstart, E2. simpl.
  split; [reflexivity |].
  eexists. split; [reflexivity |].
  pose proof (getTargetElement_query env href Hnonempty Hne) as Hq.
  destruct (querySelector env href) as [| | top].
  - rewrite scrollToTarget_missing by exact Hq. auto.
  - rewrite scrollToTarget_missing by exact Hq. auto.
  - apply (scrollToTarget_found config env href top Hq Hframes).
Qed.

Lemma aboutPage_frames :
  Exists (fun t => (duration config <= t - now Examples.aboutPage)%Q)
    (frames Examples.aboutPage).
Proof.
  apply Exists_cons_tl, Exists_cons_tl, Exists_cons_hd.
  intros H. vm_compute in H. discriminate H.
Qed.

Lemma local_anchor_click_witness :
  Str.startsWith "#" "#shop" = true ∧
  "#shop" ≠ "#" ∧
  snd (handleAnchorClick config Examples.aboutPage (Some "#shop") ∅) = ∅.
Proof.
  split; [reflexivity |]. split; [discriminate |].
  refine (proj1 (local_anchor_click Examples.aboutPage "#shop" ∅ eq_refl _
                   aboutPage_frames)).
  discriminate.
Defined.

(** A click scrolls and pushes only through [scrollToTarget]. *)
Lemma handleAnchorClick_effects (cfg : Config) (env : Env) (href : string)
    (storage : gmap string string) :
  fst (handleAnchorClick cfg env (Some href) storage) = []
  ∨ fst (handleAnchorClick cfg env (Some href) storage)
    = PreventDefault :: scrollToTarget cfg env (clickTarget href).
Proof.
  unfold handleAnchorClick, clickTarget.
  destruct (String.eqb href EmptyString); [left; reflexivity |].
  destruct (Str.startsWith "#" href && negb (String.eqb href "#"));
    [right; reflexivity |].
  destruct (Str.includes "index.html#" href); [| left; reflexivity].
  destruct (isHomePage env); [right; reflexivity |].
  destruct (extractIdFromHref href) as [id |]; [| left; reflexivity].
  destruct (truthy (Some id)); left; reflexivity.
Qed.

(** C7. A missing element makes the operation return at its null check:
    without the dropdown button or menu no listener is registered, without
    the container the constructor of the slider returns before it sets
    anything up, and a click whose target is not found, or whose hash is
    not a valid selector, neither scrolls nor pushes onto the history. *)
Theorem missing_elements_abort (doc : Dropdown.Document)
    (opts : Slider.OptionsArg) (measured : JS.num)
    (cfg : Config) (env : Env) (href : string) (storage : gmap string string)
    (Hdoc : Dropdown.categoryDropdownBtn doc = false
            ∨ Dropdown.categoryDropdownMenu doc = false)
    (Htarget : getTargetElement env (clickTarget href) = None) :
  Dropdown.onDOMContentLoaded doc = [] ∧
  Slider.constructor None opts measured = Slider.NotInitialised ∧
  scrolls (fst (handleAnchorClick cfg env (Some href) storage)) = [] ∧
  pushes (fst (handleAnchorClick cfg env (Some href) storage)) = [].
Proof.
  split.
  { unfold Dropdown.onDOMContentLoaded.
    destruct Hdoc as [-> | ->]; [reflexivity |].
    rewrite orb_true_r. reflexivity. }
  split; [reflexivity |].
  destruct (handleAnchorClick_effects cfg env href storage) as [-> | ->].
  - split; reflexivity.
  - rewrite scrollToTarget_missing by exact Htarget. split; reflexivity.
Qed.

Lemma missing_elements_abort_witness :
  getTargetElement Examples.aboutPage (clickTarget "#1") = None ∧
  Dropdown.onDOMContentLoaded (Dropdown.mkDocument true false 3) = [] ∧
  Slider.constructor None Examples.pageOptions (Some 100%Q)
  = Slider.NotInitialised ∧
  scrolls (fst (handleAnchorClick config Examples.aboutPage (Some "#1") ∅)) = [] ∧
  pushes (fst (handleAnchorClick config Examples.aboutPage (Some "#1") ∅)) = [].
Proof.
  split; [reflexivity |].
  apply (missing_elements_abort (Dropdown.mkDocument true false 3)
           Examples.pageOptions (Some 100%Q) config Examples.aboutPage "#1" ∅).
  - right. reflexivity.
  - reflexivity.
Defined.

Lemma truthy_hash (x : string) : truthy (Some ("#" +:+ x)) = true.
Proof. reflexivity. Qed.

(** For a link to a section of the home page the extracted id is [#]
    followed by what stands after [index.html#]. *)
Lemma extractIdFromHref_section (pre id : string) :
  Str.first_at "index.html#" pre id →
  Str.includes "index.html#" id = false →
  extractIdFromHref (pre +:+ "index.html#" +:+ id) = Some ("#" +:+ id).
Proof.
  intros Hfirst Hid. unfold extractIdFromHref.
  rewrite StrFacts.includes_app. f_equal. f_equal.
  unfold Str.split. rewrite !StrFacts.length_append.
  replace (String.length pre + (String.length "index.html#" + String.length id))%nat
    with (S (String.length pre + (10 + String.length id)))%nat by (simpl; lia).
  cbn [Str.split_upto]. rewrite StrFacts.find_first_app by exact Hfirst.
  destruct (String.length pre + (10 + String.length id))%nat; simpl;
    [reflexivity |].
  rewrite StrFacts.find_first_none by exact Hid. reflexivity.
Qed.

(** A link that is handled as a local anchor prevents the default although
    its [href] contains [index.html#], and nothing is stored. *)
Lemma hash_link_with_index_is_local :
  ¬ (∀ (env : Env) (href : string) (storage : gmap string string),
       Str.includes "index.html#" href = true → isHomePage env = false →
       preventsDefault (fst (handleAnchorClick config env (Some href) storage))
       = false ∧
       is_Some (snd (handleAnchorClick config env (Some href) storage)
                !! "scrollTarget")).
Proof.
  intros H.
  destruct (H Examples.aboutPage "#index.html#shop" ∅ eq_refl eq_refl)
    as [Hprevent _].
  vm_compute in Hprevent. discriminate Hprevent.
Qed.

(** C2 (as amended). A click on a link whose [href] contains
    [index.html#] and does not start with [#], away from the home page,
    does not prevent the default and stores the extracted id, which starts
    with [#], under [scrollTarget]. The next page load removes the key
    whether or not the target exists, scrolls only if an element matches
    the stored id, and a further load finds nothing to do. *)
Theorem cross_page_target_consumed_once (cfg : Config) (env next later : Env)
    (href : string) (storage : gmap string string)
    (Hinc : Str.includes "index.html#" href = true)
    (Hlocal : Str.startsWith "#" href = false)
    (Hhome : isHomePage env = false) :
  ∃ id,
    extractIdFromHref href = Some ("#" +:+ id) ∧
    let click := handleAnchorClick cfg env (Some href) storage in
    let load := pageLoad cfg next (snd click) in
    fst click = [] ∧
    snd click = <["scrollTarget" := "#" +:+ id]> storage ∧
    snd load = delete "scrollTarget" storage ∧
    snd load !! "scrollTarget" = None ∧
    fst load = scrollToTarget cfg next (Some ("#" +:+ id)) ∧
    (getTargetElement next (Some ("#" +:+ id)) = None → fst load = []) ∧
    (∀ top,
       getTargetElement next (Some ("#" +:+ id)) = Some top →
       Exists (fun t => (duration cfg <= t - now next)%Q) (frames next) →
       ∃ mid, fst load
              = map ScrollTo mid
                ++ [ScrollTo (top + scrollY next - offset cfg);
                    PushState ("#" +:+ id)]) ∧
    pageLoad cfg later (snd load) = ([], snd load).
Proof.
  exists (nth 1 (Str.split "index.html#" href) "undefined").
  set (id := nth 1 (Str.split "index.html#" href) "undefined").
  assert (Hid : extractIdFromHref href = Some ("#" +:+ id)).
  { unfold extractIdFromHref. rewrite Hinc. reflexivity. }
  split; [exact Hid |].
  assert (Hne : href ≠ EmptyString)
    by (apply (StrFacts.includes_nonempty "index.html#");
        [discriminate | exact Hinc]).
  apply String.eqb_neq in Hne.
  assert (Hclick : handleAnchorClick cfg env (Some href) storage
                   = ([], <["scrollTarget" := "#" +:+ id]> storage)).
  { unfold handleAnchorClick.
    rewrite Hne, Hlocal, Hinc, Hhome, Hid, truthy_hash. reflexivity. }
  assert (Hload : pageLoad cfg next (<["scrollTarget" := "#" +:+ id]> storage)
                  = (scrollToTarget cfg next (Some ("#" +:+ id)),
                     delete "scrollTarget" storage)).
  { unfold pageLoad, checkStoredScrollTarget.
    rewrite lookup_insert_eq, truthy_hash, delete_insert_eq. reflexivity. }
  cbv zeta. rewrite Hclick. simpl fst. simpl snd. rewrite Hload. simpl fst. simpl snd.
  split; [reflexivity |]. split; [reflexivity |]. split; [reflexivity |].
  split; [apply lookup_delete_eq |]. split; [reflexivity |].
  split; [apply scrollToTarget_missing |].
  split; [intros top; apply scrollToTarget_found |].
  unfold pageLoad, checkStoredScrollTarget.
  rewrite lookup_delete_eq. reflexivity.
Qed.

Lemma cross_page_target_consumed_once_witness :
  Str.includes "index.html#" "./index.html#shop" = true ∧
  Str.startsWith "#" "./index.html#shop" = false ∧
  isHomePage Examples.aboutPage = false ∧
  ∃ id, extractIdFromHref "./index.html#shop" = Some ("#" +:+ id).
Proof.
  split; [reflexivity |]. split; [reflexivity |]. split; [reflexivity |].
  destruct (cross_page_target_consumed_once config Examples.aboutPage
              Examples.homePage Examples.homePage "./index.html#shop" ∅
              eq_refl eq_refl eq_refl) as (id & Hid & _).
  exists id. exact Hid.
Defined.

End SmoothScrollProofs.

Module PageProofs.
Import Page.

(** A click writes the storage only under the key [scrollTarget]. *)
Lemma handleAnchorClick_storage (cfg : SmoothScroll.Config)
    (env : SmoothScroll.Env) (href : option string)
    (storage : gmap string string) :
  snd (SmoothScroll.handleAnchorClick cfg env href storage) = storage
  ∨ ∃ id, snd (SmoothScroll.handleAnchorClick cfg env href storage)
          = <["scrollTarget" := id]> storage.
Proof.
  unfold SmoothScroll.handleAnchorClick.
  destruct href as [h |]; [| left; reflexivity].
  destruct (String.eqb h EmptyString); [left; reflexivity |].
  destruct (Str.startsWith "#" h && negb (String.eqb h "#"));
    [left; reflexivity |].
  destruct (Str.includes "index.html#" h); [| left; reflexivity].
  destruct (SmoothScroll.isHomePage env); [left; reflexivity |].
  destruct (SmoothScroll.extractIdFromHref h) as [id |]; [| left; reflexivity].
  destruct (SmoothScroll.truthy (Some id)); [| left; reflexivity].
  right. exists id. reflexivity.
Qed.

(** A page load only removes the key [scrollTarget]. *)
Lemma pageLoad_storage (cfg : SmoothScroll.Config) (env : SmoothScroll.Env)
    (storage : gmap string string) :
  snd (SmoothScroll.pageLoad cfg env storage) = storage
  ∨ snd (SmoothScroll.pageLoad cfg env storage) = delete "scrollTarget" storage.
Proof.
  unfold SmoothScroll.pageLoad, SmoothScroll.checkStoredScrollTarget.
  destruct (SmoothScroll.truthy (storage !! "scrollTarget")).
  - destruct (storage !! "scrollTarget"); right; reflexivity.
  - left. reflexivity.
Qed.

(** A click on a link to a section of the home page, away from the home
    page, leaves an entry in the session storage. *)
Lemma anchor_click_writes_session_storage :
  ¬ (∀ (e : Event) (p : State),
       sessionStorage (handle e p) = sessionStorage p).
Proof.
  intros H.
  specialize (H (AnchorClick SmoothScroll.config Examples.aboutPage
                   (Some "./index.html#shop")) Examples.freshPage).
  apply (f_equal (fun m : gmap string string => m !! "scrollTarget")) in H.
  vm_compute in H. discriminate H.
Qed.

(** C4 (as amended). The only data a handler writes that outlives the page
    is the entry [scrollTarget] of the session storage: every other key
    keeps its value under every event, and the handlers of the dropdown and
    of the slider leave the storage as it is. *)
Theorem only_scrollTarget_outlives_page (e : Event) (p : State) (key : string)
    (Hkey : key ≠ "scrollTarget") :
  sessionStorage (handle e p) !! key = sessionStorage p !! key ∧
  (isSmoothScrollEvent e = false →
   sessionStorage (handle e p) = sessionStorage p).
Proof.
  destruct e as [e | e | cfg env href | cfg env]; simpl.
  - split; reflexivity.
  - split; reflexivity.
  - split; [| discriminate].
    destruct (handleAnchorClick_storage cfg env href (sessionStorage p))
      as [H | [id H]];
      destruct (SmoothScroll.handleAnchorClick cfg env href (sessionStorage p))
        as [done storage]; simpl in *; subst storage; [reflexivity |].
    apply lookup_insert_ne. congruence.
  - split; [| discriminate].
    destruct (pageLoad_storage cfg env (sessionStorage p)) as [H | H];
      destruct (SmoothScroll.pageLoad cfg env (sessionStorage p))
        as [done storage]; simpl in *; subst storage; [reflexivity |].
    apply lookup_delete_ne. congruence.
Qed.

Lemma only_scrollTarget_outlives_page_witness :
  "cart" ≠ "scrollTarget" ∧
  sessionStorage
    (handle (AnchorClick SmoothScroll.config Examples.aboutPage
               (Some "./index.html#shop")) Examples.freshPage) !! "cart"
  = sessionStorage Examples.freshPage !! "cart".
Proof.
  assert (Hkey : "cart" ≠ "scrollTarget") by discriminate.
  split; [exact Hkey |].
  exact (proj1 (only_scrollTarget_outlives_page
                  (AnchorClick SmoothScroll.config Examples.aboutPage
                     (Some "./index.html#shop")) Examples.freshPage "cart" Hkey)).
Defined.

End PageProofs.

Module DropdownBehaviour.
Import Dropdown ClassListFacts.

(** X14. No handler of the dropdown touches any class but [active] on the
    button and [show] on the menu, and none adds or removes the arrow. *)
Theorem handlers_touch_only_their_classes (e : Event) (s : State) (c : string) :
  (c ≠ "active" → (c ∈ btn (handle e s) ↔ c ∈ btn s)) ∧
  (c ≠ "show" → (c ∈ menu (handle e s) ↔ c ∈ menu s)) ∧
  (is_Some (arrow (handle e s)) ↔ is_Some (arrow s)).
Proof.
  assert (Htoggle : ∀ (k : string) (cl : ClassList.t),
            c ≠ k → (c ∈ ClassList.toggle k cl ↔ c ∈ cl)).
  { intros k cl Hk. unfold ClassList.toggle.
    destruct (ClassList.contains k cl);
      rewrite ?elem_of_remove, ?elem_of_add; tauto. }
  assert (Harrow : ∀ v a, is_Some (setArrow v a) ↔ is_Some a).
  { intros v [a |]; simpl; split; intros [x H]; eauto; discriminate. }
  assert (Hclose : (c ≠ "active" → (c ∈ btn (close s) ↔ c ∈ btn s)) ∧
                   (c ≠ "show" → (c ∈ menu (close s) ↔ c ∈ menu s)) ∧
                   (is_Some (arrow (close s)) ↔ is_Some (arrow s))).
  { simpl. rewrite !elem_of_remove. split; [tauto |]. split; [tauto |].
    apply Harrow. }
  destruct e as [| inBtn inMenu | | key]; simpl.
  - split; [apply Htoggle |]. split; [apply Htoggle | apply Harrow].
  - unfold documentClick. destruct (negb inBtn && negb inMenu);
      [exact Hclose | tauto].
  - exact Hclose.
  - unfold documentKeydown. destruct (_ && _); [exact Hclose | tauto].
Qed.

Lemma toggle_absent (k : string) (cl : ClassList.t) :
  k ∉ cl → ClassList.toggle k cl = ClassList.add k cl.
Proof.
  intros H. unfold ClassList.toggle. apply contains_false in H. rewrite H.
  reflexivity.
Qed.

Lemma remove_remove (k : string) (cl : ClassList.t) :
  ClassList.remove k (ClassList.remove k cl) = ClassList.remove k cl.
Proof.
  apply set_eq. intros x. rewrite !elem_of_remove. tauto.
Qed.

(** X15. The three closing handlers (a click outside button and menu, a
    click on an item, Escape while the menu is shown) leave the same
    state, whatever the state before: menu hidden, button not active, arrow
    at [rotate(0deg)]. Closing again changes nothing, and one click on the
    button then opens the menu, marks the button and turns the arrow. A
    click inside the button or the menu and any key but Escape leave the
    state as it is, as does Escape while the menu is hidden. *)
Theorem closing_handlers_agree (s : State) :
  documentClick false false s = itemClick s ∧
  (("show" ∈ menu s) → documentKeydown "Escape" s = itemClick s) ∧
  ("show" ∉ menu (itemClick s)) ∧ ("active" ∉ btn (itemClick s)) ∧
  arrow (itemClick s) = setArrow "rotate(0deg)" (arrow s) ∧
  itemClick (itemClick s) = itemClick s ∧
  ("show" ∈ menu (btnClick (itemClick s))) ∧
  ("active" ∈ btn (btnClick (itemClick s))) ∧
  arrow (btnClick (itemClick s)) = setArrow "rotate(180deg)" (arrow s) ∧
  (∀ inBtn inMenu, inBtn || inMenu = true → documentClick inBtn inMenu s = s) ∧
  (∀ key, key ≠ "Escape" → documentKeydown key s = s) ∧
  (("show" ∉ menu s) → ∀ key, documentKeydown key s = s).
Proof.
  assert (Hshow : "show" ∉ menu (itemClick s))
    by (simpl; rewrite elem_of_remove; tauto).
  assert (Hactive : "active" ∉ btn (itemClick s))
    by (simpl; rewrite elem_of_remove; tauto).
  split; [reflexivity |].
  split.
  { intros H. unfold documentKeydown. apply contains_true in H. rewrite H.
    reflexivity. }
  split; [exact Hshow |]. split; [exact Hactive |]. split; [reflexivity |].
  split.
  { unfold itemClick, close. simpl. rewrite !remove_remove.
    destruct (arrow s); reflexivity. }
  split; [apply elem_of_toggle, Hshow |].
  split; [apply elem_of_toggle, Hactive |].
  split.
  { rewrite DropdownProofs.btnClick_arrow.
    assert (E : ClassList.contains "show" (menu (btnClick (itemClick s))) = true)
      by (apply contains_true; simpl; apply elem_of_toggle, Hshow).
    rewrite E. simpl. destruct (arrow s); reflexivity. }
  split.
  { intros inBtn inMenu H. unfold documentClick.
    destruct inBtn, inMenu; try reflexivity; discriminate. }
  split.
  { intros key H. unfold documentKeydown. apply String.eqb_neq in H.
    rewrite H. reflexivity. }
  intros H key. unfold documentKeydown. apply contains_false in H. rewrite H.
  apply andb_false_r || (rewrite andb_false_r; reflexivity).
Qed.

(** X16. From any state, an even number of clicks on the button gives back
    the class lists of button and menu, and an odd number leaves them as
    after one click. *)
Theorem clicks_count_modulo_two (n : nat) (s : State) :
  btn (Nat.iter (2 * n) btnClick s) = btn s ∧
  menu (Nat.iter (2 * n) btnClick s) = menu s ∧
  btn (Nat.iter (S (2 * n)) btnClick s) = btn (btnClick s) ∧
  menu (Nat.iter (S (2 * n)) btnClick s) = menu (btnClick s).
Proof.
  assert (Heven : btn (Nat.iter (2 * n) btnClick s) = btn s ∧
                  menu (Nat.iter (2 * n) btnClick s) = menu s).
  { induction n as [| n [IHb IHm]]; [split; reflexivity |].
    replace (2 * S n)%nat with (S (S (2 * n))) by lia.
    change (Nat.iter (S (S (2 * n))) btnClick s)
      with (btnClick (btnClick (Nat.iter (2 * n) btnClick s))).
    destruct (DropdownProofs.btnClick_twice_classes (Nat.iter (2 * n) btnClick s))
      as [Hb Hm].
    rewrite Hb, Hm. split; assumption. }
  destruct Heven as [Hb Hm].
  split; [exact Hb |]. split; [exact Hm |].
  change (Nat.iter (S (2 * n)) btnClick s)
    with (btnClick (Nat.iter (2 * n) btnClick s)).
  split.
  - change (btn (btnClick (Nat.iter (2 * n) btnClick s)))
      with (ClassList.toggle "active" (btn (Nat.iter (2 * n) btnClick s))).
    rewrite Hb. reflexivity.
  - change (menu (btnClick (Nat.iter (2 * n) btnClick s)))
      with (ClassList.toggle "show" (menu (Nat.iter (2 * n) btnClick s))).
    rewrite Hm. reflexivity.
Qed.

End DropdownBehaviour.

Module SliderBehaviour.
Import Slider NumFacts.

Local Open Scope Z_scope.

(** What the body of [slideToIndex] leaves in the lock, the timers and the
    inline styles. *)
Lemma slideToIndex_lock (index : JS.int) (animate : bool) (s : State) :
  isAnimating s = false →
  let s' := slideToIndex index animate s in
  isAnimating s' = loop (options s) && animate ∧
  timers s' = timers s ++ (if loop (options s) && animate then [LoopReset] else []) ∧
  transition (wrapper s') = (if negb animate then "none" else "transform 0.3s ease") ∧
  transform (wrapper s') = TranslateX (currentTranslate s') ∧
  isDragging s' = isDragging s ∧
  mouseDrags s' = mouseDrags s.
Proof.
  intros Hanim. unfold slideToIndex. rewrite Hanim.
  set (s1 := set_prevTranslate _ _).
  assert (Hu : options (updateDots s1) = options s ∧
               timers (updateDots s1) = timers s ∧
               isAnimating (updateDots s1) = isAnimating s ∧
               transition (wrapper (updateDots s1))
               = (if negb animate then "none" else "transform 0.3s ease") ∧
               isDragging (updateDots s1) = isDragging s ∧
               mouseDrags (updateDots s1) = mouseDrags s).
  { unfold updateDots. destruct (dots s1); [destruct (negb (loop (options s1))) |];
      repeat split; reflexivity. }
  destruct Hu as (U1 & U2 & U3 & U4 & U5 & U6).
  set (s2 := updateDots s1) in *.
  change (options (setSliderPosition s2)) with (options s2). rewrite U1.
  rewrite Hanim in U3.
  destruct (loop (options s) && animate); simpl; rewrite ?U2, ?U3, ?U4, ?U5, ?U6;
    rewrite ?app_nil_r; repeat split; reflexivity.
Qed.

Lemma dragEnd_lock (s : State) :
  isAnimating s = false →
  isAnimating (dragEnd s) = loop (options s) ∧
  timers (dragEnd s) = timers s ++ (if loop (options s) then [LoopReset] else []) ∧
  isDragging (dragEnd s) = isDragging s ∧
  mouseDrags (dragEnd s) = mouseDrags s.
Proof.
  intros Hanim. unfold dragEnd.
  destruct (JS.gt _ _);
    match goal with
    | |- context [slideToIndex ?i true ?t] =>
        destruct (slideToIndex_lock i true t Hanim) as (H1 & H2 & _ & _ & H5 & H6)
    end;
    rewrite H1, H2, H5, H6; simpl; rewrite andb_true_r; repeat split; reflexivity.
Qed.

Lemma loopResetCallback_lock (s : State) :
  isAnimating (loopResetCallback s) = isAnimating s ∧
  timers (loopResetCallback s) = timers s ++ [AnimationEnd].
Proof.
  unfold loopResetCallback.
  destruct (JS.ile _ _); [| destruct (JS.ige _ _)]; split; reflexivity.
Qed.

Lemma existsb_last (t : Timer) (l : list Timer) :
  existsb (Timer_eqb t) (l ++ [t]) = true.
Proof.
  rewrite existsb_app. simpl. destruct t; simpl; rewrite ?orb_true_r; reflexivity.
Qed.

(** *** Setting up *)

Lemma setupInfiniteLoop_cloning (s : State) (n k : Z) :
  Z.of_nat (length (children (wrapper s))) = n →
  cardsToShow (options s) = k → 1 <= k < n →
  setupInfiniteLoop s
  = set_maxIndex (Some (n + k))
      (set_totalCards (Some (n + 2 * k))
         (set_children
            (rev (map cloneCard (skipn (Z.to_nat (n - k)) (children (wrapper s))))
             ++ children (wrapper s)
             ++ map cloneCard (firstn (Z.to_nat k) (children (wrapper s))))
            (set_totalRealCards (Some n) s))).
Proof.
  intros Hn Hk Hkn.
  unfold setupInfiniteLoop.
  change (cardsToShow (options (set_totalRealCards
            (Some (Z.of_nat (length (children (wrapper s))))) s)))
    with (cardsToShow (options s)).
  rewrite Hn, Hk.
  replace (n <=? k) with false by (symmetry; apply Z.leb_gt; lia).
  rewrite Z.min_r by lia.
  rewrite SliderProofs.slice_first by lia.
  rewrite SliderProofs.slice_last by lia.
  rewrite Hn.
  rewrite SliderProofs.fold_left_push_front, SliderProofs.fold_left_push_back.
  rewrite <- app_assoc.
  set (w := rev _ ++ _ ++ _).
  assert (Hlen : Z.of_nat (length w) = n + 2 * k).
  { unfold w.
    rewrite !length_app, length_rev, !length_map, length_skipn, length_firstn. lia. }
  rewrite Hlen. replace (n + 2 * k - k) with (n + k) by lia. reflexivity.
Qed.

(** X1. With at least one card in view and more real cards than that,
    [setupInfiniteLoop] puts clones of the last [cardsToShow] cards in front
    of the real cards, in reverse order, and clones of the first
    [cardsToShow] cards behind them; it counts the real cards, all cards,
    and sets [maxIndex] to the number of real cards plus [cardsToShow]. The
    options stay as they were. *)
Theorem setupInfiniteLoop_clones_both_ends (s : State) (n k : Z)
    (Hn : Z.of_nat (length (children (wrapper s))) = n)
    (Hk : cardsToShow (options s) = k) (Hkn : 1 <= k < n) :
  let cards := children (wrapper s) in
  let s' := setupInfiniteLoop s in
  children (wrapper s')
  = rev (map cloneCard (skipn (Z.to_nat (n - k)) cards)) ++ cards
    ++ map cloneCard (firstn (Z.to_nat k) cards) ∧
  Z.of_nat (length (children (wrapper s'))) = n + 2 * k ∧
  totalRealCards s' = Some n ∧
  totalCards s' = Some (n + 2 * k) ∧
  maxIndex s' = Some (n + k) ∧
  options s' = options s ∧
  currentIndex s' = currentIndex s.
Proof.
  intros cards s'. unfold s'.
  rewrite (setupInfiniteLoop_cloning s n k Hn Hk Hkn). simpl.
  repeat split; try reflexivity.
  rewrite !length_app, length_rev, !length_map, length_skipn, length_firstn. lia.
Qed.

Lemma setupInfiniteLoop_clones_both_ends_witness :
  Z.of_nat (length Examples.threeCards) = 3 ∧
  maxIndex (setupInfiniteLoop Examples.unprepared) = Some 4.
Proof.
  split; [reflexivity |].
  refine (proj1 (proj2 (proj2 (proj2 (proj2
            (setupInfiniteLoop_clones_both_ends Examples.unprepared 3 1
               eq_refl eq_refl _)))))).
  lia.
Defined.

(** X2. Over no more cards than fit the view the constructor clones
    nothing: the wrapper keeps its cards, looping is switched off,
    [maxIndex] stays unset, no dots are made and no initial positioning is
    scheduled. *)
Theorem constructor_too_few_cards (c : Container) (cards : list Card)
    (opts : OptionsArg) (measured : JS.num)
    (Hc : cardsWrapper c = Some cards)
    (Hfew : Z.of_nat (length cards) <= cardsToShow (mergeOptions opts)) :
  ∃ s, constructor (Some c) opts measured = Ready s ∧
       children (wrapper s) = cards ∧
       loop (options s) = false ∧
       totalRealCards s = Some (Z.of_nat (length cards)) ∧
       maxIndex s = None ∧
       dots s = None ∧
       timers s = (if autoSlide (mergeOptions opts) then [AutoSlide] else []) ∧
       currentIndex s = Some 0 ∧
       isAnimating s = false.
Proof.
  unfold constructor. rewrite Hc. eexists. split; [reflexivity |].
  destruct opts as [oc oa oi ol].
  assert (Hleb : (Z.of_nat (length cards) <=? default 1 oc) = true)
    by (apply Z.leb_le; exact Hfew).
  unfold init, setupInfiniteLoop, calculateCardWidth, createDots. simpl.
  rewrite Hleb. simpl.
  destruct (sliderDots c); destruct cards as [| c0 cards];
    destruct oa as [[|] |]; repeat split; reflexivity.
Qed.

Lemma constructor_too_few_cards_witness :
  ∃ s, constructor
         (Some (mkContainer (Some [mkCard 0 {["product-card"]}]) true true true))
         Examples.pageOptions (Some 100%Q) = Ready s ∧
       maxIndex s = None.
Proof.
  destruct (constructor_too_few_cards
              (mkContainer (Some [mkCard 0 {["product-card"]}]) true true true)
              [mkCard 0 {["product-card"]}] Examples.pageOptions (Some 100%Q)
              eq_refl ltac:(simpl; lia))
    as (s & Hs & _ & _ & _ & Hm & _).
  exists s. split; assumption.
Defined.



(** X4. No sequence of events changes the cards of the wrapper, the
    options, the number of real cards or [maxIndex]: what
    [setupInfiniteLoop] built stays. *)
Theorem run_keeps_layout (events : list Event) (s : State) :
  same_layout s (run events s) ∧
  (∀ n k, loop_layout n k s → loop_layout n k (run events s)).
Proof.
  assert (H : same_layout s (run events s)).
  { unfold run. revert s. induction events as [| e events IH]; intros s; simpl.
    - apply SliderProofs.same_layout_refl.
    - eapply SliderProofs.same_layout_trans;
        [apply SliderProofs.handle_same_layout | apply IH]. }
  split; [exact H |].
  intros n k (Hkn & Hk & Hn & Hm). destruct H as [H1 H2 H3 H4].
  repeat split; [exact Hkn | | |]; congruence.
Qed.

(** *** The animation lock *)

Lemma Timer_eqb_eq (a b : Timer) : Timer_eqb a b = true ↔ a = b.
Proof. destruct a, b; simpl; split; intros H; try reflexivity; discriminate. Qed.

Lemma remove_first_last (t : Timer) (l : list Timer) :
  t ∉ l → remove_first t (l ++ [t]) = l.
Proof.
  induction l as [| u l IH]; intros Hl; simpl.
  - replace (Timer_eqb t t) with true by (symmetry; apply Timer_eqb_eq; reflexivity).
    reflexivity.
  - destruct (Timer_eqb t u) eqn:E.
    + apply Timer_eqb_eq in E. subst u. exfalso. apply Hl. left.
    + rewrite IH; [reflexivity |]. intros H. apply Hl. right. exact H.
Qed.

Lemma remove_first_other (t u : Timer) (l : list Timer) :
  u ∉ l → u ∉ remove_first t l.
Proof.
  induction l as [| v l IH]; intros Hl; simpl; [exact Hl |].
  destruct (Timer_eqb t v).
  - intros H. apply Hl. right. exact H.
  - intros H. apply elem_of_cons in H as [-> | H].
    + apply Hl. left.
    + apply IH; [| exact H]. intros H'. apply Hl. right. exact H'.
Qed.

(** The two callbacks that follow an animated slide. *)
Lemma callbacks_settle (s1 : State) (l : list Timer) :
  timers s1 = l ++ [LoopReset] →
  let s3 := fire AnimationEnd (fire LoopReset s1) in
  currentIndex s3 = loopResetIndex s1 ∧
  isAnimating s3 = false ∧
  same_layout s1 s3 ∧
  (LoopReset ∉ l → AnimationEnd ∉ l → timers s3 = l).
Proof.
  intros Ht.
  assert (H2 : fire LoopReset s1
               = loopResetCallback (set_timers (remove_first LoopReset (timers s1)) s1)).
  { unfold fire. rewrite Ht, existsb_last. reflexivity. }
  set (s1' := set_timers (remove_first LoopReset (timers s1)) s1) in *.
  destruct (loopResetCallback_lock s1') as (_ & Ht2).
  destruct (SliderProofs.loopResetCallback_fields s1') as (Hi2 & _).
  assert (H3 : fire AnimationEnd (fire LoopReset s1)
               = animationEndCallback
                   (set_timers (remove_first AnimationEnd (timers (fire LoopReset s1)))
                      (fire LoopReset s1))).
  { unfold fire at 1. rewrite H2, Ht2, existsb_last. reflexivity. }
  simpl. rewrite H3. simpl.
  split; [rewrite H2; exact Hi2 |]. split; [reflexivity |].
  split.
  { rewrite H2.
    destruct (SliderProofs.loopResetCallback_same_layout s1') as [A B C D].
    constructor; simpl; assumption. }
  intros Hl Ha. rewrite H2, Ht2. unfold s1'. simpl. rewrite Ht.
  rewrite (remove_first_last LoopReset l Hl).
  apply remove_first_last. exact Ha.
Qed.

(** X5. An animated slide in loop mode locks the slider and schedules the
    loop reset; while it is locked, further slides, arrow clicks and the
    start of a touch or mouse gesture do nothing. Once the reset and the
    unlock callback have run the slider is unlocked on the index the reset
    chose, with no timer of the slide left. A slide without animation
    neither locks nor schedules anything. *)
Theorem animated_slide_locks_until_settled (s : State) (index : JS.int)
    (Hanim : isAnimating s = false) (Hloop : loop (options s) = true) :
  let s1 := slideToIndex index true s in
  isAnimating s1 = true ∧
  timers s1 = timers s ++ [LoopReset] ∧
  (∀ i a, slideToIndex i a s1 = s1) ∧
  slidePrev s1 = s1 ∧ slideNext s1 = s1 ∧
  (∀ onLink x y, handleTouchStart onLink x y s1 = s1) ∧
  (∀ onLink x, handleMouseDown onLink x s1 = s1) ∧
  (let s3 := fire AnimationEnd (fire LoopReset s1) in
   isAnimating s3 = false ∧
   currentIndex s3 = loopResetIndex s1 ∧
   (LoopReset ∉ timers s → AnimationEnd ∉ timers s → timers s3 = timers s)) ∧
  isAnimating (slideToIndex index false s) = false ∧
  timers (slideToIndex index false s) = timers s.
Proof.
  intros s1.
  destruct (slideToIndex_lock index true s Hanim) as (H1 & H2 & _).
  fold s1 in H1, H2. rewrite Hloop in H1, H2. simpl in H1, H2.
  destruct (callbacks_settle s1 (timers s) H2) as (C1 & C2 & _ & C4).
  destruct (slideToIndex_lock index false s Hanim) as (F1 & F2 & _).
  rewrite andb_false_r in F1, F2. rewrite app_nil_r in F2.
  split; [exact H1 |]. split; [exact H2 |].
  split; [intros; apply SliderProofs.slideToIndex_animating; exact H1 |].
  split; [unfold slidePrev; rewrite H1; reflexivity |].
  split; [unfold slideNext; rewrite H1; reflexivity |].
  split; [intros; unfold handleTouchStart; rewrite H1, orb_true_r; reflexivity |].
  split; [intros; unfold handleMouseDown; rewrite H1, orb_true_r; reflexivity |].
  split; [split; [exact C2 | split; [exact C1 | exact C4]] |].
  split; assumption.
Qed.

Lemma animated_slide_locks_until_settled_witness :
  isAnimating Examples.started = false ∧
  isAnimating (slideToIndex (Some 2) true Examples.started) = true.
Proof.
  split; [reflexivity |].
  exact (proj1 (animated_slide_locks_until_settled Examples.started (Some 2)
                  eq_refl eq_refl)).
Defined.

(** X6. With one card in view, a click on the next arrow, once settled,
    leaves the slider one index further, and on index 0 when it started on
    the last real card or beyond; a click on the previous arrow leaves it
    one index back, and on [maxIndex] when it started on index 1 or 0. So
    the slider rests on the indices 0 to [maxIndex] and never beyond. *)
Theorem arrows_after_settling (s : State) (n i : Z)
    (Hlayout : loop_layout n 1 s) (Hloop : loop (options s) = true)
    (Hanim : isAnimating s = false)
    (Hi : currentIndex s = Some i) (Hrange : 0 <= i <= n + 1) :
  let next := fire AnimationEnd (fire LoopReset (slideNext s)) in
  let prev := fire AnimationEnd (fire LoopReset (slidePrev s)) in
  currentIndex next = Some (if i <? n then i + 1 else 0) ∧
  isAnimating next = false ∧
  currentIndex prev = Some (if 1 <? i then i - 1 else n + 1) ∧
  isAnimating prev = false.
Proof.
  destruct Hlayout as (Hkn & Hk & Hn & Hm).
  assert (Hstep : ∀ j : Z,
            let s1 := slideToIndex (Some j) true s in
            currentIndex (fire AnimationEnd (fire LoopReset s1))
            = Some (let c := Z.max 0 (Z.min j (n + 1)) in
                    if c <=? 0 then n + 1 - (0 - c)
                    else if c >=? n + 1 then c - (n + 1) + 0 else c) ∧
            isAnimating (fire AnimationEnd (fire LoopReset s1)) = false).
  { intros j s1.
    destruct (slideToIndex_lock (Some j) true s Hanim) as (_ & H2 & _).
    fold s1 in H2. rewrite Hloop in H2. simpl in H2.
    destruct (callbacks_settle s1 (timers s) H2) as (C1 & C2 & _).
    split; [| exact C2]. rewrite C1.
    destruct (SliderProofs.slideToIndex_fields (Some j) true s Hanim)
      as (Fi & _ & _ & Fm & _ & _ & Fo & _).
    fold s1 in Fi, Fm, Fo.
    unfold loopResetIndex. rewrite Fi, Fm, Fo, Hk, Hm.
    cbn [JS.imax JS.imin JS.ile JS.ige JS.cmp JS.isub JS.iadd JS.lift2].
    replace (1 - 1) with 0 by lia.
    replace (n + 1 - 0) with (n + 1) by lia.
    destruct (Z.max 0 (Z.min j (n + 1)) <=? 0);
      [| destruct (Z.max 0 (Z.min j (n + 1)) >=? n + 1)]; reflexivity. }
  unfold slideNext, slidePrev. rewrite Hanim, Hi.
  cbn [JS.iadd JS.isub JS.lift2].
  destruct (Hstep (i + 1)) as (N1 & N2). destruct (Hstep (i - 1)) as (P1 & P2).
  cbv zeta in N1, P1 |- *.
  split; [| split; [exact N2 | split; [| exact P2]]].
  - rewrite N1. f_equal. rewrite Z.geb_leb.
    repeat match goal with
           | |- context [?a <=? ?b] => destruct (Z.leb_spec a b)
           | |- context [?a <? ?b] => destruct (Z.ltb_spec a b)
           end; lia.
  - rewrite P1. f_equal. rewrite Z.geb_leb.
    repeat match goal with
           | |- context [?a <=? ?b] => destruct (Z.leb_spec a b)
           | |- context [?a <? ?b] => destruct (Z.ltb_spec a b)
           end; lia.
Qed.

Lemma arrows_after_settling_witness :
  loop_layout 3 1 Examples.started ∧
  currentIndex (fire AnimationEnd (fire LoopReset (slideNext Examples.started)))
  = Some (if 3 <? 3 then 3 + 1 else 0).
Proof.
  assert (Hlayout : loop_layout 3 1 Examples.started)
    by (repeat split; reflexivity).
  split; [exact Hlayout |].
  refine (proj1 (arrows_after_settling Examples.started 3 3 Hlayout
                   eq_refl eq_refl eq_refl _)).
  lia.
Defined.

Lemma elem_of_cleared (t u : Timer) (l : list Timer) :
  u ∈ filter (fun v => negb (Timer_eqb t v)) l ↔ u ≠ t ∧ u ∈ l.
Proof.
  rewrite list_elem_of_filter.
  destruct (Timer_eqb t u) eqn:E; simpl.
  - apply Timer_eqb_eq in E. subst u. split; [intros [[] _] | intros [H _]; congruence].
  - split; intros [_ H]; (split; [| exact H]); [| exact I].
    intros ->. destruct t; discriminate E.
Qed.

Lemma forceResetGesture_timers (s : State) :
  timers (forceResetGesture s)
  = filter (fun v => negb (Timer_eqb GestureReset v)) (timers s).
Proof. reflexivity. Qed.

Lemma handleTouchEnd_dragging (s : State) :
  isDragging s = true → isAnimating s = false →
  timers (handleTouchEnd s)
  = filter (fun v => negb (Timer_eqb GestureReset v)) (timers (dragEnd s))
    ++ [GestureReset].
Proof.
  intros Hd Ha. unfold handleTouchEnd. rewrite Hd, Ha. reflexivity.
Qed.

(** X7. When a swipe by touch ends, the listener on the document runs
    after the one on the wrapper and resets the gesture: the slide has been
    started and its loop reset is pending, but the slider is not locked.
    When a drag by mouse ends, the slider is locked until the callbacks have
    run, the listeners on the document are gone, and [isDragging] stays
    set. *)
Theorem touch_end_unlocks_mouse_up_locks (s : State)
    (Hloop : loop (options s) = true) (Hdrag : isDragging s = true)
    (Hanim : isAnimating s = false) :
  (let t := handle (TouchEnd true) s in
   isAnimating t = false ∧ (LoopReset ∈ timers t) ∧ (GestureReset ∉ timers t) ∧
   isDragging t = false ∧ ("dragging" ∉ classList (wrapper t))) ∧
  (mouseDrags s = 1%nat →
   let m := handle MouseUp s in
   isAnimating m = true ∧ (LoopReset ∈ timers m) ∧
   isDragging m = true ∧ mouseDrags m = 0%nat).
Proof.
  destruct (dragEnd_lock s Hanim) as (D1 & D2 & D3 & D4).
  rewrite Hloop in D1, D2.
  split.
  - change (handle (TouchEnd true) s) with (forceResetGesture (handleTouchEnd s)).
    cbv zeta. rewrite forceResetGesture_timers.
    rewrite (handleTouchEnd_dragging s Hdrag Hanim), D2.
    split; [reflexivity |]. split; [| split; [| split; [reflexivity |]]].
    + apply elem_of_cleared. split; [discriminate |].
      apply elem_of_app. left. apply elem_of_cleared. split; [discriminate |].
      apply elem_of_app. right. left.
    + intros H. apply elem_of_cleared in H as [H _]. congruence.
    + simpl. intros H. apply ClassListFacts.elem_of_remove in H as [_ H].
      congruence.
  - intros Hone.
    change (handle MouseUp s) with (Nat.iter (mouseDrags s) mouseUp s).
    rewrite Hone. simpl.
    unfold mouseUp. rewrite Hdrag, Hanim. simpl. rewrite D1, D2, D3, D4, Hone.
    repeat split; auto.
    apply elem_of_app. right. left.
Qed.

Lemma touch_end_unlocks_mouse_up_locks_witness :
  isDragging Examples.draggedRight = true ∧
  isAnimating (handle MouseUp Examples.draggedRight) = true.
Proof.
  split; [reflexivity |].
  refine (proj1 (proj2 (touch_end_unlocks_mouse_up_locks Examples.draggedRight
                          eq_refl eq_refl eq_refl) _)).
  reflexivity.
Defined.

Lemma mouseUp_mouseDrags (s : State) :
  mouseDrags (mouseUp s) = pred (mouseDrags s).
Proof.
  unfold mouseUp. destruct (isDragging s && negb (isAnimating s)) eqn:E;
    [| reflexivity].
  apply andb_true_iff in E as [_ E]. apply negb_true_iff in E.
  destruct (dragEnd_lock s E) as (_ & _ & _ & D4). simpl. rewrite D4. reflexivity.
Qed.

Lemma iter_mouseUp_mouseDrags (n : nat) (s : State) :
  mouseDrags (Nat.iter n mouseUp s) = (mouseDrags s - n)%nat.
Proof.
  induction n as [| n IH]; [simpl; lia |].
  change (Nat.iter (S n) mouseUp s) with (mouseUp (Nat.iter n mouseUp s)).
  rewrite mouseUp_mouseDrags, IH. lia.
Qed.

(** X8. After a mouse button is released no [mousemove] or [mouseup]
    listener of the slider is left on the document, however many presses
    went before: moving the mouse or releasing it again changes nothing
    until the next press. *)
Theorem mouse_is_ignored_after_mouseUp (s : State) :
  mouseDrags (handle MouseUp s) = 0%nat ∧
  (∀ x, handle (MouseMove x) (handle MouseUp s) = handle MouseUp s) ∧
  handle MouseUp (handle MouseUp s) = handle MouseUp s.
Proof.
  assert (H : mouseDrags (handle MouseUp s) = 0%nat).
  { simpl. rewrite iter_mouseUp_mouseDrags. lia. }
  split; [exact H |].
  split; [intros x |];
    change (handle (MouseMove x) (handle MouseUp s))
      with (Nat.iter (mouseDrags (handle MouseUp s)) (mouseMove x) (handle MouseUp s))
    || change (handle MouseUp (handle MouseUp s))
      with (Nat.iter (mouseDrags (handle MouseUp s)) mouseUp (handle MouseUp s));
    rewrite H; reflexivity.
Qed.

(** *** Dots *)

Lemma slideToIndex_dots (index : JS.int) (animate : bool) (s : State) :
  isAnimating s = false →
  dots (slideToIndex index animate s)
  = dots (updateDots
            (set_currentIndex (JS.imax (Some 0) (JS.imin index (maxIndex s))) s)).
Proof.
  intros Hanim. unfold slideToIndex. rewrite Hanim.
  set (idx := JS.imax (Some 0) (JS.imin index (maxIndex s))).
  set (s1 := set_prevTranslate _ _).
  assert (H : dots (updateDots s1) = dots (updateDots (set_currentIndex idx s))).
  { unfold updateDots.
    change (dots s1) with (dots s).
    change (dots (set_currentIndex idx s)) with (dots s).
    destruct (dots s); [| reflexivity].
    change (loop (options s1)) with (loop (options s)).
    change (loop (options (set_currentIndex idx s))) with (loop (options s)).
    destruct (negb (loop (options s))); reflexivity. }
  destruct (loop (options (setSliderPosition (updateDots s1))) && animate);
    simpl; exact H.
Qed.

Lemma marked_dot (r : Z) (ds : list ClassList.t) (j : nat) (d : ClassList.t) :
  imap (fun i dot => ClassList.toggle_force "active" (isRealIndex (Some r) i) dot)
    ds !! j = Some d →
  ("active" ∈ d ↔ Z.of_nat j = r).
Proof.
  intros Hj. rewrite list_lookup_imap in Hj.
  destruct (ds !! j) as [d0 |]; [| discriminate]. simpl in Hj.
  injection Hj as <-. unfold ClassList.toggle_force.
  destruct (Z.of_nat j =? r) eqn:E.
  - apply Z.eqb_eq in E. rewrite ClassListFacts.elem_of_add. tauto.
  - apply Z.eqb_neq in E. rewrite ClassListFacts.elem_of_remove.
    split; [intros [_ H]; contradiction | intros H; contradiction].
Qed.

(** X9. In loop mode a click on the dot of a real card slides to the index
    of that card, the number of the dot plus [cardsToShow], and leaves that
    dot, and no other, active. *)
Theorem dot_click_activates_that_dot (s : State) (n k : Z) (i : nat)
    (ds : list ClassList.t)
    (Hlayout : loop_layout n k s) (Hk : 0 <= k)
    (Hloop : loop (options s) = true) (Hanim : isAnimating s = false)
    (Hdots : dots s = Some ds) (Hi : Z.of_nat i < n) :
  let s' := handle (DotClick i) s in
  currentIndex s' = Some (Z.of_nat i + k) ∧
  isAnimating s' = true ∧
  ∃ ds', dots s' = Some ds' ∧ length ds' = length ds ∧
         ∀ j d, ds' !! j = Some d → ("active" ∈ d ↔ j = i).
Proof.
  destruct Hlayout as (Hkn & Hkk & Hn & Hm).
  simpl. unfold slideToRealIndex. rewrite Hloop, Hkk.
  destruct (SliderProofs.slideToIndex_fields (Some (Z.of_nat i + k)) true s Hanim)
    as (Fi & _).
  destruct (slideToIndex_lock (Some (Z.of_nat i + k)) true s Hanim) as (L1 & _).
  rewrite Hm in Fi. simpl in Fi.
  replace (Z.max 0 (Z.min (Z.of_nat i + k) (n + k))) with (Z.of_nat i + k)
    in Fi by lia.
  split; [exact Fi |]. split; [rewrite L1, Hloop; reflexivity |].
  rewrite (slideToIndex_dots _ _ _ Hanim), Hm. simpl JS.imax.
  cbn [JS.imax JS.imin JS.lift2].
  replace (Z.max 0 (Z.min (Z.of_nat i + k) (n + k))) with (Z.of_nat i + k) by lia.
  unfold updateDots. simpl dots. rewrite Hdots. simpl options. rewrite Hloop.
  simpl negb. cbv iota.
  assert (Hr : realIndexOf (set_currentIndex (Some (Z.of_nat i + k)) s)
               = Some (Z.of_nat i)).
  { unfold realIndexOf. simpl. rewrite Hkk, Hn.
    cbn [JS.ilt JS.ige JS.cmp JS.isub JS.iadd JS.lift2].
    replace (Z.of_nat i + k - k) with (Z.of_nat i) by lia.
    replace (Z.of_nat i <? 0) with false by (symmetry; apply Z.ltb_ge; lia).
    rewrite Z.geb_leb.
    replace (n <=? Z.of_nat i) with false by (symmetry; apply Z.leb_gt; lia).
    reflexivity. }
  rewrite Hr. eexists. split; [reflexivity |]. split; [apply length_imap |].
  intros j d Hj. rewrite (marked_dot (Z.of_nat i) ds j d Hj). lia.
Qed.

Lemma dot_click_activates_that_dot_witness :
  loop_layout 3 1 Examples.started ∧
  currentIndex (handle (DotClick 2) Examples.started) = Some (Z.of_nat 2 + 1).
Proof.
  assert (Hlayout : loop_layout 3 1 Examples.started)
    by (repeat split; reflexivity).
  split; [exact Hlayout |].
  refine (proj1 (dot_click_activates_that_dot Examples.started 3 1 2
                   Examples.startedDots Hlayout _ eq_refl eq_refl eq_refl _));
    simpl; lia.
Defined.

Lemma take_one_drop {A : Type} (l : list A) (i : nat) (x : A) :
  l !! i = Some x → firstn 1 (skipn i l) = [x].
Proof.
  revert i. induction l as [| y l IH]; intros i H; [discriminate |].
  destruct i as [| i]; simpl in *.
  - injection H as ->. reflexivity.
  - apply IH. exact H.
Qed.

(** X10. With one card in view, at every index from 0 to [maxIndex] the
    card in view is the real card whose dot [updateDots] marks: the clone at
    either end shows the card of the dot that is marked there. *)
Theorem marked_dot_names_card_in_view (s : State) (first last : Card)
    (mid : list Card) (i : Z)
    (Hc : children (wrapper s)
          = cloneCard last :: (first :: mid ++ [last]) ++ [cloneCard first])
    (Hk : cardsToShow (options s) = 1)
    (Hn : totalRealCards s = Some (Z.of_nat (length mid) + 2))
    (Hi : currentIndex s = Some i)
    (Hrange : 0 <= i <= Z.of_nat (length mid) + 3) :
  ∃ (r : Z) (c : Card),
    realIndexOf s = Some r ∧
    (first :: mid ++ [last]) !! Z.to_nat r = Some c ∧
    visible s = [content c].
Proof.
  set (cards := first :: mid ++ [last]) in *.
  assert (Hlen : length cards = S (S (length mid)))
    by (unfold cards; simpl; rewrite length_app; simpl; lia).
  assert (Hvis : ∀ x, children (wrapper s) !! Z.to_nat i = Some x →
                      visible s = [content x]).
  { intros x Hx. unfold visible, visibleAt. rewrite Hi, Hk.
    change (Z.to_nat 1) with 1%nat. rewrite (take_one_drop _ _ _ Hx). reflexivity. }
  assert (Hlast : cards !! S (length mid) = Some last).
  { unfold cards. rewrite lookup_cons_ne_0 by lia. simpl.
    rewrite lookup_app_r by lia. rewrite Nat.sub_diag. reflexivity. }
  unfold realIndexOf. rewrite Hi, Hk, Hn.
  cbn [JS.ilt JS.ige JS.cmp JS.isub JS.iadd JS.lift2]. rewrite Z.geb_leb.
  destruct (Z.ltb_spec (i - 1) 0) as [H0 | H0].
  - (* index 0: the clone of the last card *)
    assert (i = 0) by lia. subst i.
    exists (Z.of_nat (length mid) + 2 + (0 - 1)), last.
    split; [reflexivity |]. split.
    + replace (Z.to_nat (Z.of_nat (length mid) + 2 + (0 - 1)))
        with (S (length mid)) by lia.
      exact Hlast.
    + rewrite (Hvis (cloneCard last)); [reflexivity |]. rewrite Hc. reflexivity.
  - destruct (Z.leb_spec (Z.of_nat (length mid) + 2) (i - 1)) as [H1 | H1].
    + (* index maxIndex: the clone of the first card *)
      assert (i = Z.of_nat (length mid) + 3) by lia. subst i.
      exists (Z.of_nat (length mid) + 3 - 1 - (Z.of_nat (length mid) + 2)), first.
      split; [reflexivity |]. split.
      * replace (Z.to_nat (Z.of_nat (length mid) + 3 - 1 - (Z.of_nat (length mid) + 2)))
          with 0%nat by lia.
        reflexivity.
      * rewrite (Hvis (cloneCard first)); [reflexivity |]. rewrite Hc.
        replace (Z.to_nat (Z.of_nat (length mid) + 3)) with (S (length cards)) by lia.
        change ((cloneCard last :: cards ++ [cloneCard first]) !! S (length cards))
          with ((cards ++ [cloneCard first]) !! length cards).
        rewrite lookup_app_r by lia.
        rewrite Nat.sub_diag. reflexivity.
    + (* a real card *)
      assert (Hlt : (Z.to_nat (i - 1) < length cards)%nat) by lia.
      destruct (lookup_lt_is_Some_2 cards _ Hlt) as [c Hcard].
      exists (i - 1), c. split; [reflexivity |]. split; [exact Hcard |].
      apply Hvis. rewrite Hc.
      replace (Z.to_nat i) with (S (Z.to_nat (i - 1))) by lia.
      change ((cloneCard last :: cards ++ [cloneCard first]) !! S (Z.to_nat (i - 1)))
        with ((cards ++ [cloneCard first]) !! Z.to_nat (i - 1)).
      rewrite lookup_app_l by lia. exact Hcard.
Qed.

Lemma marked_dot_names_card_in_view_witness :
  ∃ (r : Z) (c : Card),
    realIndexOf Examples.atIndexZero = Some r ∧
    Examples.threeCards !! Z.to_nat r = Some c ∧
    visible Examples.atIndexZero = [content c].
Proof.
  refine (marked_dot_names_card_in_view Examples.atIndexZero
            (mkCard 0 {["product-card"]}) (mkCard 2 {["product-card"]})
            [mkCard 1 {["product-card"]}] 0 eq_refl eq_refl eq_refl eq_refl _).
  simpl. lia.
Defined.

(** *** The first position *)

(** What [init] leaves behind where [setupInfiniteLoop] clones. *)
Lemma init_cloning (measured : JS.num) (s : State) (n k : Z) :
  Z.of_nat (length (children (wrapper s))) = n →
  cardsToShow (options s) = k → 1 <= k < n →
  loop (options s) = true → timers s = [] →
  let s0 := init measured s in
  children (wrapper s0)
  = rev (map cloneCard (skipn (Z.to_nat (n - k)) (children (wrapper s))))
    ++ children (wrapper s)
    ++ map cloneCard (firstn (Z.to_nat k) (children (wrapper s))) ∧
  options s0 = options s ∧
  totalRealCards s0 = Some n ∧
  maxIndex s0 = Some (n + k) ∧
  cardFullWidth s0 = measured ∧
  isAnimating s0 = isAnimating s ∧
  timers s0 = InitPosition :: (if autoSlide (options s) then [AutoSlide] else []).
Proof.
  intros Hn Hk Hkn Hloop Ht. unfold init.
  rewrite (setupInfiniteLoop_cloning s n k Hn Hk Hkn).
  set (w := rev _ ++ _ ++ _).
  assert (Hw : w ≠ []).
  { intros E. apply (f_equal (@length Card)) in E. unfold w in E.
    rewrite !length_app in E. simpl in E. lia. }
  unfold calculateCardWidth. simpl children.
  destruct w as [| c0 w'] eqn:Ew; [congruence |].
  unfold createDots. simpl dotsContainer. simpl options. rewrite Hloop.
  destruct (dotsContainer s); simpl; rewrite ?Hloop;
    destruct (autoSlide (options s)) eqn:Ea; unfold startAutoSlide; simpl;
    rewrite ?Ea; simpl; rewrite ?Ea, ?Ht; simpl; repeat split; reflexivity.
Qed.

(** X11. Where the constructor clones and looping is on, the callback that
    sets the first position puts the slider, without animation and without
    locking it, on the index that equals the number of real cards; the
    cards in view there are the last [cardsToShow] real cards. *)
Theorem initial_position_shows_last_cards (measured : JS.num) (s : State)
    (n k : Z)
    (Hn : Z.of_nat (length (children (wrapper s))) = n)
    (Hk : cardsToShow (options s) = k) (Hkn : 1 <= k < n)
    (Hloop : loop (options s) = true) (Hanim : isAnimating s = false)
    (Ht : timers s = []) :
  let s1 := fire InitPosition (init measured s) in
  (InitPosition ∈ timers (init measured s)) ∧
  currentIndex s1 = Some n ∧
  isAnimating s1 = false ∧
  (LoopReset ∉ timers s1) ∧ (InitPosition ∉ timers s1) ∧
  currentTranslate s1 = JS.neg (JS.mul (Some (inject_Z n)) measured) ∧
  transition (wrapper s1) = "none" ∧
  visible s1
  = map content (skipn (Z.to_nat (n - k)) (children (wrapper s))).
Proof.
  destruct (init_cloning measured s n k Hn Hk Hkn Hloop Ht)
    as (Ic & Io & In & Im & Iw & Ia & It).
  set (s0 := init measured s) in *.
  assert (Hfire : fire InitPosition s0
                  = initPositionCallback
                      (set_timers (remove_first InitPosition (timers s0)) s0)).
  { unfold fire. rewrite It. reflexivity. }
  cbv zeta. rewrite Hfire. unfold initPositionCallback.
  set (t := set_currentIndex _ _).
  assert (Ta : isAnimating t = false) by (unfold t; simpl; congruence).
  destruct (SliderProofs.slideToIndex_fields (currentIndex t) false t Ta)
    as (Fi & Fc & _ & _ & Fw & _ & Fo & Fch).
  destruct (slideToIndex_lock (currentIndex t) false t Ta)
    as (L1 & L2 & L3 & _).
  assert (Tidx : currentIndex t = Some n) by (unfold t; simpl; exact In).
  assert (Tmax : maxIndex t = Some (n + k)) by (unfold t; simpl; exact Im).
  rewrite Tidx in *. rewrite Tmax in Fi. simpl in Fi.
  replace (Z.max 0 (Z.min n (n + k))) with n in Fi by lia.
  split; [rewrite It; left |].
  split; [exact Fi |].
  split; [rewrite L1; apply andb_false_r |].
  assert (Htimers : timers (slideToIndex (Some n) false t)
                    = (if autoSlide (options s) then [AutoSlide] else [])).
  { rewrite L2, andb_false_r, app_nil_r. unfold t. simpl. rewrite It. reflexivity. }
  split; [rewrite Htimers; destruct (autoSlide (options s));
          intros H; repeat (apply elem_of_cons in H as [H | H]; [discriminate |]);
          inversion H |].
  split; [rewrite Htimers; destruct (autoSlide (options s));
          intros H; repeat (apply elem_of_cons in H as [H | H]; [discriminate |]);
          inversion H |].
  split; [rewrite Fc, Fi, Fw; unfold t; simpl; rewrite Iw; reflexivity |].
  split; [exact L3 |].
  unfold visible, visibleAt. rewrite Fi, Fo, Fch.
  unfold t. simpl. rewrite Io, Hk, Ic.
  set (cards := children (wrapper s)) in *.
  assert (Hlen : length cards = Z.to_nat n) by lia.
  rewrite drop_app_ge
    by (rewrite length_rev, length_map, length_skipn; lia).
  rewrite length_rev, length_map, length_skipn.
  replace (Z.to_nat n - (length cards - Z.to_nat (n - k)))%nat
    with (Z.to_nat (n - k)) by lia.
  rewrite drop_app_le by lia.
  rewrite take_app_length' by (rewrite length_skipn; lia).
  reflexivity.
Qed.

Lemma initial_position_shows_last_cards_witness :
  timers Examples.unprepared = [] ∧
  visible (fire InitPosition (init (Some 100%Q) Examples.unprepared))
  = map content (skipn (Z.to_nat (3 - 1)) Examples.threeCards).
Proof.
  split; [reflexivity |].
  refine (proj2 (proj2 (proj2 (proj2 (proj2 (proj2 (proj2
            (initial_position_shows_last_cards (Some 100%Q) Examples.unprepared
               3 1 eq_refl eq_refl _ eq_refl eq_refl eq_refl)))))))).
  lia.
Defined.

(** *** Resizing and touching *)

(** X12. A resize takes the new card width in any case. On a slider that is
    not animating it puts the wrapper back on the current index with the
    new width, without animation, lock or timer; while a slide is animating
    it leaves index, translate and transform as they are. *)
Theorem resize_repositions_unless_animating (s : State) (measured : JS.num)
    (i m : Z)
    (Hcards : children (wrapper s) ≠ [])
    (Hi : currentIndex s = Some i) (Hm : maxIndex s = Some m)
    (Hrange : 0 <= i <= m) :
  let s' := handle (Resize measured) s in
  cardFullWidth s' = measured ∧
  (isAnimating s = false →
   currentIndex s' = Some i ∧
   currentTranslate s' = JS.neg (JS.mul (Some (inject_Z i)) measured) ∧
   prevTranslate s' = currentTranslate s' ∧
   transform (wrapper s') = TranslateX (currentTranslate s') ∧
   transition (wrapper s') = "none" ∧
   isAnimating s' = false ∧
   timers s' = timers s) ∧
  (isAnimating s = true →
   currentIndex s' = currentIndex s ∧
   currentTranslate s' = currentTranslate s ∧
   transform (wrapper s') = transform (wrapper s)).
Proof.
  assert (Hcalc : calculateCardWidth measured s = set_cardFullWidth measured s).
  { unfold calculateCardWidth. destruct (children (wrapper s)); [congruence |].
    reflexivity. }
  simpl. rewrite Hcalc.
  set (t := set_cardFullWidth measured s).
  change (currentIndex t) with (currentIndex s). rewrite Hi.
  destruct (isAnimating s) eqn:Hanim.
  - rewrite SliderProofs.slideToIndex_animating by exact Hanim.
    split; [reflexivity |]. split; [discriminate |]. intros _.
    repeat split; try reflexivity. exact Hi.
  - assert (Ta : isAnimating t = false) by exact Hanim.
    destruct (SliderProofs.slideToIndex_fields (Some i) false t Ta)
      as (Fi & Fc & Fp & _ & Fw & _).
    destruct (slideToIndex_lock (Some i) false t Ta)
      as (L1 & L2 & L3 & L4 & _).
    change (maxIndex t) with (maxIndex s) in Fi. rewrite Hm in Fi. simpl in Fi.
    replace (Z.max 0 (Z.min i m)) with i in Fi by lia.
    split; [exact Fw |]. split; [| discriminate]. intros _.
    split; [exact Fi |].
    split; [rewrite Fc, Fi, Fw; reflexivity |].
    split; [exact Fp |]. split; [exact L4 |]. split; [exact L3 |].
    split; [rewrite L1; apply andb_false_r |].
    rewrite L2, andb_false_r, app_nil_r. reflexivity.
Qed.

Lemma resize_repositions_unless_animating_witness :
  children (wrapper Examples.started) ≠ [] ∧
  cardFullWidth (handle (Resize (Some 250%Q)) Examples.started) = Some 250%Q.
Proof.
  assert (H : children (wrapper Examples.started) ≠ []) by discriminate.
  split; [exact H |].
  refine (proj1 (resize_repositions_unless_animating Examples.started
                   (Some 250%Q) 3 4 H eq_refl eq_refl _)).
  lia.
Defined.

(** X13. After a touch has started on a slider that is not animating, the
    first move decides the gesture. Within 8 pixels in both directions
    nothing happens yet; a move that is not more horizontal than vertical
    is left to the page; a move that is more horizontal than vertical
    starts the drag, marks the wrapper as dragging and shifts it by the
    horizontal distance from the start of the touch. Once the drag has
    started every further move shifts the wrapper by its horizontal
    distance from the start, whatever its direction. *)
Theorem first_touch_move_decides_gesture (s : State) (x0 y0 x y : Q)
    (Hanim : isAnimating s = false) :
  let s1 := handleTouchStart false x0 y0 s in
  let s2 := handleTouchMove true (Some (x, y)) s1 in
  let near := (Qabs (x - x0) < 8 ∧ Qabs (y - y0) < 8)%Q in
  let horizontal := (Qabs (y - y0) < Qabs (x - x0))%Q in
  (near → s2 = s1) ∧
  (¬ near → ¬ horizontal → s2 = s1) ∧
  (¬ near → horizontal →
   isDragging s2 = true ∧ isHorizontalSwipe s2 = true ∧
   ("dragging" ∈ classList (wrapper s2)) ∧
   currentTranslate s2 = JS.add (currentTranslate s) (Some (x - x0)%Q) ∧
   transform (wrapper s2) = TranslateX (currentTranslate s2) ∧
   currentIndex s2 = currentIndex s ∧
   ∀ x' y',
     currentTranslate (handleTouchMove true (Some (x', y')) s2)
     = JS.add (currentTranslate s) (Some (x' - x0)%Q)).
Proof.
  intros s1 s2 near horizontal.
  assert (Hs1 : s1 = set_transition "none"
                       (set_initialX x0
                          (set_prevTranslate (currentTranslate s)
                             (set_isHorizontalSwipe false
                                (set_isDragging false
                                   (set_startY y0
                                      (set_startX x0
                                         (clearTimer GestureReset s)))))))).
  { unfold s1, handleTouchStart. rewrite Hanim. reflexivity. }
  assert (Hmove : s2 =
            if JS.Qltb (Qabs (x - x0)) 8 && JS.Qltb (Qabs (y - y0)) 8 then s1
            else if JS.Qltb (Qabs (y - y0)) (Qabs (x - x0)) then
              setSliderPosition
                (set_currentTranslate
                   (JS.add (currentTranslate s) (Some (x - x0)%Q))
                   (set_classList (ClassList.add "dragging" (classList (wrapper s1)))
                      (set_transition "none"
                         (set_isDragging true (set_isHorizontalSwipe true s1)))))
            else s1).
  { unfold s2, handleTouchMove. rewrite Hs1. simpl. rewrite Hanim. simpl.
    unfold LOCK_DISTANCE.
    destruct (JS.Qltb (Qabs (x - x0)) 8 && JS.Qltb (Qabs (y - y0)) 8);
      [reflexivity |].
    destruct (JS.Qltb (Qabs (y - y0)) (Qabs (x - x0))); reflexivity. }
  assert (Hnear : JS.Qltb (Qabs (x - x0)) 8 && JS.Qltb (Qabs (y - y0)) 8 = true
                  ↔ near).
  { rewrite andb_true_iff, !Qltb_lt. reflexivity. }
  split; [| split].
  - intros Hn. apply Hnear in Hn. rewrite Hmove, Hn. reflexivity.
  - intros Hn Hh. rewrite Hmove.
    destruct (JS.Qltb (Qabs (x - x0)) 8 && JS.Qltb (Qabs (y - y0)) 8);
      [reflexivity |].
    apply Qltb_nlt in Hh. rewrite Hh. reflexivity.
  - intros Hn Hh.
    assert (E : JS.Qltb (Qabs (x - x0)) 8 && JS.Qltb (Qabs (y - y0)) 8 = false).
    { apply not_true_is_false. intros E. apply Hn, Hnear, E. }
    apply Qltb_lt in Hh. rewrite E, Hh in Hmove.
    rewrite Hmove.
    split; [reflexivity |]. split; [reflexivity |].
    split; [simpl; apply ClassListFacts.elem_of_add; right; reflexivity |].
    split; [reflexivity |]. split; [reflexivity |].
    split; [rewrite Hs1; reflexivity |].
    intros x' y'. unfold handleTouchMove. rewrite Hs1. simpl. rewrite Hanim.
    reflexivity.
Qed.

Lemma first_touch_move_decides_gesture_witness :
  isAnimating Examples.started = false ∧
  handleTouchMove true (Some (3%Q, 2%Q))
    (handleTouchStart false 0 0 Examples.started)
  = handleTouchStart false 0 0 Examples.started.
Proof.
  split; [reflexivity |].
  refine (proj1 (first_touch_move_decides_gesture Examples.started 0 0 3 2
                   eq_refl) _).
  split; reflexivity.
Defined.

End SliderBehaviour.

Module SmoothScrollBehaviour.
Import SmoothScroll NumFacts.

(** *** Links and storage *)

Lemma includes_tail (c : ascii) (sub s : string) :
  Str.includes (String c sub) s = true → Str.includes sub s = true.
Proof.
  induction s as [| x s IH]; intros H.
  - simpl in H. discriminate H.
  - rewrite StrFacts.includes_unfold in H.
    rewrite StrFacts.includes_unfold.
    apply orb_true_iff in H as [H | H].
    + simpl in H. destruct (ascii_dec c x); [| discriminate].
      apply orb_true_iff. right.
      rewrite StrFacts.includes_unfold. rewrite H. reflexivity.
    + apply orb_true_iff. right. apply IH. exact H.
Qed.

Lemma dot_slash_branch_dead (href : string) :
  Str.includes "./index.html#" href = true →
  Str.includes "index.html#" href = true.
Proof. intros H. apply includes_tail in H. apply includes_tail in H. exact H. Qed.

Lemma extractIdFromHref_branches (href : string) :
  extractIdFromHref href
  = (if Str.includes "index.html#" href
     then Some ("#" +:+ nth 1 (Str.split "index.html#" href) "undefined")
     else if Str.startsWith "#" href then Some href else None).
Proof.
  unfold extractIdFromHref.
  destruct (Str.includes "./index.html#" href) eqn:E2.
  - rewrite (dot_slash_branch_dead href E2). reflexivity.
  - destruct (Str.includes "index.html#" href); reflexivity.
Qed.

(** X17. [extractIdFromHref] has three outcomes: for an [href] that
    contains [index.html#], [#] followed by the second piece of the split;
    for any other [href] that starts with [#], the [href] itself; else
    [null]. The branch for [./index.html#] is never reached, and every id
    that is returned starts with [#]. *)
Theorem extractIdFromHref_cases (href : string) :
  extractIdFromHref href
  = (if Str.includes "index.html#" href
     then Some ("#" +:+ nth 1 (Str.split "index.html#" href) "undefined")
     else if Str.startsWith "#" href then Some href else None) ∧
  (Str.includes "./index.html#" href = true →
   Str.includes "index.html#" href = true) ∧
  (∀ id, extractIdFromHref href = Some id → Str.startsWith "#" id = true).
Proof.
  split; [apply extractIdFromHref_branches |].
  split; [apply dot_slash_branch_dead |].
  intros id. rewrite extractIdFromHref_branches.
  destruct (Str.includes "index.html#" href).
  - intros H. injection H as <-. apply (StrFacts.prefix_app "#").
  - destruct (Str.startsWith "#" href) eqn:E; [| discriminate].
    intros H. injection H as <-. exact E.
Qed.

Lemma first_at_dot_slash (rest : string) : Str.first_at "index.html#" "./" rest.
Proof.
  intros a b Hab Hb.
  destruct a as [| c1 [| c2 a]].
  - rewrite StrFacts.append_empty in Hab. subst b. reflexivity.
  - rewrite StrFacts.append_String, StrFacts.append_empty in Hab.
    injection Hab as _ <-. reflexivity.
  - rewrite !StrFacts.append_String in Hab. injection Hab as _ _ Hab.
    destruct a; [| discriminate Hab].
    rewrite StrFacts.append_empty in Hab. congruence.
Qed.

(** X18. For an [href] made of a prefix, [index.html#] and an id, where
    [index.html#] occurs neither earlier nor in the id, the extracted id
    is [#] followed by that id. *)
Theorem extractIdFromHref_of_section_link (pre id : string)
    (Hfirst : Str.first_at "index.html#" pre id)
    (Hid : Str.includes "index.html#" id = false) :
  extractIdFromHref (pre +:+ "index.html#" +:+ id) = Some ("#" +:+ id).
Proof. apply SmoothScrollProofs.extractIdFromHref_section; assumption. Qed.

Lemma extractIdFromHref_of_section_link_witness :
  extractIdFromHref ("./" +:+ "index.html#" +:+ "shop") = Some ("#" +:+ "shop").
Proof.
  apply (extractIdFromHref_of_section_link "./" "shop").
  - apply first_at_dot_slash.
  - reflexivity.
Defined.

(** X19. The click handler changes something only for links the selector
    of [initSmoothScroll] matches, and among those it leaves only the bare
    [#] alone. Whenever it prevents the default navigation it leaves the
    session storage unchanged; it writes the storage only when it neither
    prevents the default nor scrolls. *)
Theorem click_prevents_or_stores (cfg : Config) (env : Env) (href : string)
    (storage : gmap string string) :
  let r := handleAnchorClick cfg env (Some href) storage in
  (linkSelector href = false → r = ([], storage)) ∧
  (linkSelector href = true → href ≠ "#" →
   preventsDefault (fst r) = true
   ∨ (fst r = [] ∧ ∃ id, snd r = <["scrollTarget" := "#" +:+ id]> storage)) ∧
  (preventsDefault (fst r) = true → snd r = storage) ∧
  (snd r ≠ storage → fst r = []).
Proof.
  intros r. unfold r, handleAnchorClick, linkSelector.
  pose proof (extractIdFromHref_branches href) as Hcases.
  pose proof (dot_slash_branch_dead href) as Hdead.
  assert (Hdead' : Str.includes "index.html#" href = false →
                   Str.includes "./index.html#" href = false).
  { intros H. destruct (Str.includes "./index.html#" href); [| reflexivity].
    rewrite Hdead in H by reflexivity. discriminate H. }
  destruct (String.eqb href EmptyString) eqn:E0.
  { apply String.eqb_eq in E0. subst href. simpl.
    repeat split; intros; simpl in *; try reflexivity; try discriminate; congruence. }
  destruct (Str.startsWith "#" href) eqn:E1.
  - destruct (String.eqb href "#") eqn:E2; simpl.
    + apply String.eqb_eq in E2. subst href. simpl.
      repeat split; intros; simpl in *; try reflexivity; try discriminate; congruence.
    + repeat split; intros; simpl in *; try reflexivity; try discriminate; try congruence.
      left. reflexivity.
  - simpl. destruct (Str.includes "index.html#" href) eqn:E3; simpl.
    + destruct (isHomePage env).
      * repeat split; intros; simpl in *; try reflexivity; try discriminate; try congruence.
        left. reflexivity.
      * rewrite Hcases. simpl.
        repeat split; intros; simpl in *; try reflexivity; try discriminate.
        right. split; [reflexivity |]. eexists. reflexivity.
    + rewrite (Hdead' eq_refl).
      repeat split; intros; simpl in *; try reflexivity; try discriminate; congruence.
Qed.

Lemma endsWith_app (p suffix : string) : Str.endsWith suffix (p +:+ suffix) = true.
Proof.
  unfold Str.endsWith. rewrite StrFacts.length_append.
  replace (String.length p + String.length suffix - String.length suffix)%nat
    with (String.length p) by lia.
  rewrite StrFacts.drop_app, String.eqb_refl.
  rewrite andb_true_r. apply Nat.leb_le. lia.
Qed.

(** X20. Every path that ends in [/] or in [index.html], and the empty
    path, counts as the home page; there no click writes the session
    storage, whatever the link. *)
Theorem home_page_never_stores (env : Env) (dir : string)
    (Hpath : pathname env = dir +:+ "/" ∨ pathname env = dir +:+ "index.html"
             ∨ pathname env = EmptyString) :
  isHomePage env = true ∧
  ∀ cfg href storage, snd (handleAnchorClick cfg env href storage) = storage.
Proof.
  assert (Hhome : isHomePage env = true).
  { unfold isHomePage. destruct Hpath as [-> | [-> | ->]].
    - rewrite (endsWith_app dir "/"). apply orb_true_iff. left.
      apply orb_true_r.
    - rewrite (endsWith_app dir "index.html"). reflexivity.
    - reflexivity. }
  split; [exact Hhome |].
  intros cfg href storage. unfold handleAnchorClick. rewrite Hhome.
  destruct href as [h |]; [| reflexivity].
  destruct (String.eqb h EmptyString); [reflexivity |].
  destruct (_ && _); [reflexivity |].
  destruct (Str.includes "index.html#" h); reflexivity.
Qed.

Lemma home_page_never_stores_witness :
  isHomePage (mkEnv "/shop/" Examples.shopOnly 0 0 []) = true.
Proof.
  refine (proj1 (home_page_never_stores
                   (mkEnv "/shop/" Examples.shopOnly 0 0 []) "/shop" _)).
  left. reflexivity.
Defined.

(** X21. Whatever the session storage holds, a page load leaves every key
    but [scrollTarget] alone, and a second page load finds nothing to do:
    it neither scrolls nor changes the storage. A stored target that is
    the empty text is not taken as a target and stays in the storage. *)
Theorem second_page_load_does_nothing (cfg : Config) (env env' : Env)
    (storage : gmap string string) :
  let first := pageLoad cfg env storage in
  pageLoad cfg env' (snd first) = ([], snd first) ∧
  (∀ key, key ≠ "scrollTarget" → snd first !! key = storage !! key) ∧
  (storage !! "scrollTarget" = None
   ∨ storage !! "scrollTarget" = Some EmptyString →
   first = ([], storage)).
Proof.
  intros first. unfold first, pageLoad, checkStoredScrollTarget.
  destruct (storage !! "scrollTarget") as [v |] eqn:E; simpl.
  - destruct (String.eqb v EmptyString) eqn:Ev; simpl.
    + rewrite E. simpl. rewrite Ev. simpl.
      split; [reflexivity |]. split; [reflexivity |]. reflexivity.
    + rewrite lookup_delete_eq. simpl.
      split; [reflexivity |].
      split; [intros key Hk; apply lookup_delete_ne; congruence |].
      intros [H | H]; [discriminate |].
      injection H as ->. discriminate Ev.
  - rewrite E. simpl. split; [reflexivity |]. split; reflexivity.
Qed.

(** *** The animation *)

















Lemma animation_shape (cfg : Config) (ease : Q → Q)
    (start distance startTime target : Q) (times : list Q) :
  let r := animation cfg ease start distance startTime target times in
  fst r = map ScrollTo (scrolls (fst r)) ∧
  (snd r = true → last (scrolls (fst r)) = Some target) ∧
  (Forall (fun t => (t - startTime < duration cfg)%Q) times →
   snd r = false ∧ length (scrolls (fst r)) = length times).
Proof.
  induction times as [| t times IH]; simpl.
  - split; [reflexivity |]. split; [discriminate |]. intros _. split; reflexivity.
  - destruct (JS.Qltb (t - startTime) (duration cfg)) eqn:E.
    + destruct (animation cfg ease start distance startTime target times)
        as [effects resolved].
      simpl in *. destruct IH as (IH1 & IH2 & IH3).
      split; [f_equal; exact IH1 |].
      split.
      * intros Hr. specialize (IH2 Hr).
        destruct (scrolls effects); [discriminate IH2 | exact IH2].
      * intros Hall. inversion Hall; subst.
        destruct IH3 as [-> Hlen]; [assumption |].
        split; [reflexivity |]. simpl. f_equal. exact Hlen.
    + simpl. split; [reflexivity |]. split; [reflexivity |].
      intros Hall. inversion Hall as [| ? ? Ht _]; subst.
      apply Qltb_nlt in E. contradiction.
Qed.

Lemma animateScroll_shape (cfg : Config) (env : Env) (target : Q) :
  let r := animateScroll cfg env target in
  fst r = map ScrollTo (scrolls (fst r)) ∧
  (snd r = true → last (scrolls (fst r)) = Some target).
Proof.
  unfold animateScroll. destruct (JS.Qltb _ _).
  - simpl. split; reflexivity.
  - split; apply animation_shape.
Qed.

Lemma scrolls_app (a b : list Effect) : scrolls (a ++ b) = scrolls a ++ scrolls b.
Proof. apply omap_app. Qed.

Lemma pushes_app (a b : list Effect) : pushes (a ++ b) = pushes a ++ pushes b.
Proof. apply omap_app. Qed.

Lemma scrolls_ScrollTo (ys : list Q) : scrolls (map ScrollTo ys) = ys.
Proof. induction ys as [| y ys IH]; simpl; [| f_equal; exact IH]; reflexivity. Qed.

Lemma pushes_ScrollTo (ys : list Q) : pushes (map ScrollTo ys) = [].
Proof. induction ys as [| y ys IH]; simpl; [reflexivity | exact IH]. Qed.

Lemma preventsDefault_ScrollTo (ys : list Q) (rest : list Effect) :
  preventsDefault (map ScrollTo ys ++ rest) = preventsDefault rest.
Proof. induction ys as [| y ys IH]; simpl; [reflexivity | exact IH]. Qed.

(** X24. What [getTargetElement], [getTargetPosition] and [animateScroll]
    do together at each of the three places that scroll: they never prevent
    a default, every scroll comes before the history entry, at most one
    entry is pushed, and when one is pushed it is the hash that was looked
    up and the last scroll before it went to the exact target position. *)
Theorem history_entry_follows_arrival (cfg : Config) (env : Env)
    (hash : option string) :
  let effects := scrollToTarget cfg env hash in
  preventsDefault effects = false ∧
  effects = map ScrollTo (scrolls effects) ++ map PushState (pushes effects) ∧
  (pushes effects = []
   ∨ ∃ h top,
       hash = Some h ∧ getTargetElement env hash = Some top ∧
       pushes effects = [h] ∧
       last (scrolls effects) = Some (getTargetPosition cfg env top)).
Proof.
  unfold scrollToTarget.
  destruct (getTargetElement env hash) as [top |] eqn:Et.
  2: { simpl. split; [reflexivity |]. split; [reflexivity |]. left. reflexivity. }
  pose proof (animateScroll_shape cfg env (getTargetPosition cfg env top))
    as [Hshape Hlast].
  destruct (animateScroll cfg env (getTargetPosition cfg env top))
    as [effects resolved].
  simpl in Hshape, Hlast. cbv zeta.
  set (ys := scrolls effects) in *. rewrite Hshape.
  rewrite scrolls_app, pushes_app, scrolls_ScrollTo, pushes_ScrollTo,
    preventsDefault_ScrollTo.
  destruct hash as [h |], resolved; simpl; rewrite ?app_nil_r;
    (split; [reflexivity |]); (split; [reflexivity |]);
    try (left; reflexivity).
  right. exists h, top. repeat split. apply Hlast. reflexivity.
Qed.

(** X25. While no frame has reached the end of the duration, a scroll over
    five pixels or more to a target that exists has scrolled once per frame
    and has not touched the history. *)
Theorem unfinished_animation_pushes_nothing (cfg : Config) (env : Env)
    (hash : option string) (top : Q)
    (Hfound : getTargetElement env hash = Some top)
    (Hfar : (5 <= Qabs (getTargetPosition cfg env top - scrollTop env))%Q)
    (Hearly : Forall (fun t => (t - now env < duration cfg)%Q) (frames env)) :
  pushes (scrollToTarget cfg env hash) = [] ∧
  length (scrolls (scrollToTarget cfg env hash)) = length (frames env).
Proof.
  unfold scrollToTarget, animateScroll. rewrite Hfound.
  destruct (JS.Qltb _ _) eqn:E.
  { apply Qltb_lt in E. exfalso. exact (Qlt_not_le _ _ E Hfar). }
  match goal with
  | |- context [animation ?c ?e ?s ?d ?t0 ?tg ?ts] =>
      pose proof (animation_shape c e s d t0 tg ts) as (Hshape & _ & Hrun);
      destruct (animation c e s d t0 tg ts) as [effects resolved]
  end.
  simpl in Hshape, Hrun. destruct (Hrun Hearly) as [-> Hlen].
  replace (match hash with Some _ => [] | None => [] end) with (@nil Effect)
    by (destruct hash; reflexivity).
  rewrite app_nil_r. split; [| exact Hlen].
  rewrite Hshape. apply pushes_ScrollTo.
Qed.

Lemma unfinished_animation_pushes_nothing_witness :
  pushes (scrollToTarget config
            (mkEnv "/about.html" Examples.shopOnly 100 1000 [1016; 1400]%Q)
            (Some "#shop")) = [] ∧
  length (scrolls (scrollToTarget config
            (mkEnv "/about.html" Examples.shopOnly 100 1000 [1016; 1400]%Q)
            (Some "#shop"))) = 2%nat.
Proof.
  apply (unfinished_animation_pushes_nothing config
           (mkEnv "/about.html" Examples.shopOnly 100 1000 [1016; 1400]%Q)
           (Some "#shop") 500).
  - reflexivity.
  - intros H. vm_compute in H. discriminate H.
  - repeat constructor.
Defined.

Lemma startsWith_head (c : ascii) (a b : string) :
  Str.startsWith "#" (String c a) = Str.startsWith "#" (String c b).
Proof.
  unfold Str.startsWith. cbn [String.prefix].
  destruct (ascii_dec "#" c); [| reflexivity].
  destruct a, b; reflexivity.
Qed.

(** X26. On the home page, a click on a link to one of its sections (a
    prefix that does not start with [#], [index.html#] and an id) prevents
    the navigation, scrolls to the element with that id and, once a frame
    at or after the end of the duration has arrived, pushes [#] and the id,
    not the [href], onto the history; the session storage is not written. *)
Theorem home_section_click_scrolls_in_place (cfg : Config) (env : Env)
    (pre id : string) (top : Q) (storage : gmap string string)
    (Hpre : Str.startsWith "#" pre = false)
    (Hfirst : Str.first_at "index.html#" pre id)
    (Hid : Str.includes "index.html#" id = false)
    (Hhome : isHomePage env = true)
    (Hfound : querySelector env ("#" +:+ id) = Element top)
    (Hsome : id ≠ EmptyString)
    (Hframes : Exists (fun t => (duration cfg <= t - now env)%Q) (frames env)) :
  ∃ mid,
    handleAnchorClick cfg env (Some (pre +:+ "index.html#" +:+ id)) storage
    = (PreventDefault :: map ScrollTo mid
         ++ [ScrollTo (top + scrollY env - offset cfg); PushState ("#" +:+ id)],
       storage).
Proof.
  assert (Hget : getTargetElement env (Some ("#" +:+ id)) = Some top).
  { rewrite SmoothScrollProofs.getTargetElement_query.
    - rewrite Hfound. reflexivity.
    - discriminate.
    - intros H. injection H as H. contradiction. }
  destruct (SmoothScrollProofs.scrollToTarget_found cfg env ("#" +:+ id) top
              Hget Hframes) as [mid Hmid].
  exists mid.
  assert (Hstart : Str.startsWith "#" (pre +:+ "index.html#" +:+ id) = false).
  { destruct pre as [| c pre].
    - reflexivity.
    - rewrite StrFacts.append_String, (startsWith_head c _ pre). exact Hpre. }
  assert (Hne : String.eqb (pre +:+ "index.html#" +:+ id) EmptyString = false).
  { apply String.eqb_neq. apply (StrFacts.includes_nonempty "index.html#").
    - discriminate.
    - apply StrFacts.includes_app. }
  unfold handleAnchorClick.
  rewrite Hne, Hstart, StrFacts.includes_app, Hhome.
  rewrite (SmoothScrollProofs.extractIdFromHref_section _ _ Hfirst Hid).
  rewrite Hmid. reflexivity.
Qed.

Lemma homePage_frames :
  Exists (fun t => (duration config <= t - now Examples.homePage)%Q)
    (frames Examples.homePage).
Proof.
  apply Exists_cons_tl, Exists_cons_tl, Exists_cons_hd.
  intros H. vm_compute in H. discriminate H.
Qed.

Lemma home_section_click_scrolls_in_place_witness :
  ∃ mid,
    handleAnchorClick config Examples.homePage
      (Some ("./" +:+ "index.html#" +:+ "shop")) ∅
    = (PreventDefault :: map ScrollTo mid
         ++ [ScrollTo (500 + scrollY Examples.homePage - offset config);
             PushState ("#" +:+ "shop")],
       ∅).
Proof.
  apply (home_section_click_scrolls_in_place config Examples.homePage
           "./" "shop" 500 ∅).
  - reflexivity.
  - apply first_at_dot_slash.
  - reflexivity.
  - reflexivity.
  - reflexivity.
  - discriminate.
  - exact homePage_frames.
Defined.

End SmoothScrollBehaviour.
